(** * Mother Earth Radio plugin: live metadata pipeline

    A shallow embedding of the Volumio plugin [motherearthradio] and the
    properties of its metadata ingestion pipeline: channel registry and URI
    helpers, SSE connection manager with reconnect back-off, envelope
    decoder, delay scheduler and playback session.

    The repository holds three revisions of the plugin.  Two class based
    ones (called revision A and revision B below, in that order in the
    source) share everything but [updateMetadata], [clearAddPlayTrack] and
    the toast helper; the prototype based one ([index.js]) is embedded in
    the module [Legacy]. *)

From Stdlib Require Import ZArith List Bool String Ascii Lia.
Import ListNotations.
Open Scope string_scope.
Open Scope list_scope.
Open Scope Z_scope.

(** ** Strings, as the JavaScript [String] methods the plugin calls *)

(** [s.split(c)] for a one-character separator; never the empty list. *)
Fixpoint split (sep : ascii) (s : string) : list string :=
  match s with
  | EmptyString => [EmptyString]
  | String c rest =>
      if Ascii.eqb c sep then EmptyString :: split sep rest
      else match split sep rest with
           | [] => [String c EmptyString]
           | hd :: tl => String c hd :: tl
           end
  end.

(** [s.startsWith(p)]. *)
Definition startsWith (p s : string) : bool := String.prefix p s.

(** [s.includes(sub)]. *)
Fixpoint includes (sub s : string) : bool :=
  String.prefix sub s ||
  match s with
  | EmptyString => false
  | String _ rest => includes sub rest
  end.

(** [s.substring(n)] for [n] within the string: the suffix from index [n]. *)
Fixpoint substring_from (n : nat) (s : string) : string :=
  match n, s with
  | O, _ => s
  | S n', String _ rest => substring_from n' rest
  | S _, EmptyString => EmptyString
  end.

Definition slash : ascii := "/"%char.
Definition newline : ascii := "010"%char.

(** The double quote, for the MPD command lines. *)
Definition dquote : string := String (ascii_of_nat 34) EmptyString.

(** ** JavaScript values

    The values that reach the plugin: what [JSON.parse] returns, plus
    [undefined] and the members every object literal inherits from
    [Object.prototype].  Numbers are modelled as integers. *)

#[local] Set Warnings "-register-all".

Inductive value : Type :=
| VUndef
| VNull
| VBool (b : bool)
| VNum (n : Z)
| VStr (s : string)
| VArr (items : list value)
| VObj (fields : list (string * value))
| VBuiltin (member : string).

(** ToBoolean. *)
Definition truthy (v : value) : bool :=
  match v with
  | VUndef | VNull => false
  | VBool b => b
  | VNum n => negb (n =? 0)
  | VStr s => negb (s =? "")%string
  | VArr _ | VObj _ | VBuiltin _ => true
  end.

(** [a || b]. *)
Definition js_or (a b : value) : value := if truthy a then a else b.

Fixpoint assoc {A : Type} (k : string) (l : list (string * A)) : option A :=
  match l with
  | [] => None
  | (k', a) :: tl => if (k =? k')%string then Some a else assoc k tl
  end.

(** The names every object literal answers to through its prototype
    chain: the members of [Object.prototype]. *)
Definition object_prototype_members : list string :=
  [ "constructor"; "__defineGetter__"; "__defineSetter__"; "hasOwnProperty";
    "__lookupGetter__"; "__lookupSetter__"; "isPrototypeOf";
    "propertyIsEnumerable"; "toString"; "valueOf"; "__proto__";
    "toLocaleString" ].

Definition is_inherited (k : string) : bool :=
  existsb (String.eqb k) object_prototype_members.

(** [fn.name] of an inherited member: [Object.prototype.constructor] is
    the function [Object], the accessor [__proto__] yields the prototype
    object (which has no [name]), the others are functions named after
    themselves. *)
Definition builtin_name (k : string) : value :=
  if (k =? "constructor")%string then VStr "Object"
  else if (k =? "__proto__")%string then VUndef
  else VStr k.

(** [String(v)] of an inherited member. *)
Definition builtin_to_string (k : string) : string :=
  if (k =? "__proto__")%string then "[object Object]"
  else match builtin_name k with
       | VStr n => ("function " ++ n ++ "() { [native code] }")%string
       | _ => "[object Object]"
       end.

(** [v.k] for a property name [k] written in the source.  None of the
    names the plugin reads this way ([connect], [data], [pub], [np],
    [now_playing], [song], [duration], [elapsed], [title], [artist],
    [album], [art], [name]) is defined by a built-in prototype, except
    [name] on functions; primitives and arrays therefore answer
    [undefined].  The receiver is never [null] or [undefined] where the
    source uses a plain dot (it is guarded by a truthiness test); the
    optional chaining [v?.k] is [opt_get]. *)
Definition get (v : value) (k : string) : value :=
  match v with
  | VObj fields => match assoc k fields with Some x => x | None => VUndef end
  | VBuiltin m => if (k =? "name")%string then builtin_name m else VUndef
  | _ => VUndef
  end.

(** [v?.k]. *)
Definition opt_get (v : value) (k : string) : value :=
  match v with
  | VUndef | VNull => VUndef
  | _ => get v k
  end.

(** [obj[k]] on an object literal of the source, for a computed key: an
    own property, a member inherited from [Object.prototype], or
    [undefined]. *)
Inductive lookup (A : Type) : Type :=
| Own (a : A)
| Inherited (member : string)
| Missing.
Arguments Own {A} a.
Arguments Inherited {A} member.
Arguments Missing {A}.

Definition obj_get {A : Type} (obj : list (string * A)) (k : string) : lookup A :=
  match assoc k obj with
  | Some a => Own a
  | None => if is_inherited k then Inherited k else Missing
  end.

(** The value of a looked-up string property. *)
Definition lookup_str (l : lookup string) : value :=
  match l with
  | Own s => VStr s
  | Inherited m => VBuiltin m
  | Missing => VUndef
  end.

(** A nullable string field ([null] until set) and the property key it
    turns into when used as a computed key. *)
Definition nullable (o : option string) : value :=
  match o with Some s => VStr s | None => VNull end.

Definition key_of (o : option string) : string :=
  match o with Some s => s | None => "null" end.

(** ** Constants *)

Definition SSE_RECONNECT_DELAY_MS : Z := 3000.
Definition SSE_MAX_RECONNECT_ATTEMPTS : Z := 10.
Definition HIGH_LATENCY_DELAY_MS : Z := 2000.
Definition SERVICE_NAME : string := "motherearthradio".
Definition apiHost : string := "motherearth.streamserver24.com".

(** ** Channel registry *)

Record Channel : Type := mkChannel {
  name : string;
  shortcode : string;
  streams : list (string * string)
}.

Definition listen : string := "https://motherearth.streamserver24.com/listen/".

Definition channels : list (string * Channel) :=
  [ ("radio", mkChannel "Radio" "motherearth"
       [ ("flac192", (listen ++ "motherearth/motherearth")%string);
         ("flac96", (listen ++ "motherearth/motherearth.flac-lo")%string);
         ("aac", (listen ++ "motherearth/motherearth.aac")%string) ]);
    ("klassik", mkChannel "Klassik" "motherearth_klassik"
       [ ("flac192", (listen ++ "motherearth_klassik/motherearth.klassik")%string);
         ("flac96", (listen ++ "motherearth_klassik/motherearth.klassik.flac-lo")%string);
         ("aac", (listen ++ "motherearth_klassik/motherearth.klassik.aac")%string) ]);
    ("instrumental", mkChannel "Instrumental" "motherearth_instrumental"
       [ ("flac192", (listen ++ "motherearth_instrumental/motherearth.instrumental")%string);
         ("flac96", (listen ++ "motherearth_instrumental/motherearth.instrumental.flac-lo")%string);
         ("aac", (listen ++ "motherearth_instrumental/motherearth.instrumental.aac")%string) ]);
    ("jazz", mkChannel "Jazz" "motherearth_jazz"
       [ ("flac192", (listen ++ "motherearth_jazz/motherearth.jazz")%string);
         ("flac96", (listen ++ "motherearth_jazz/motherearth.jazz.flac-lo")%string);
         ("aac", (listen ++ "motherearth_jazz/motherearth.jazz.aac")%string) ]) ].

(** [channels[k]] is truthy: own entries are objects, inherited members
    are functions or the prototype object. *)
Definition found {A : Type} (l : lookup A) : bool :=
  match l with
  | Own _ | Inherited _ => true
  | Missing => false
  end.

(** Every channel of the table has a [flac192] stream and no empty URL. *)
Definition streams_ok (c : Channel) : bool :=
  forallb (fun kv => negb (snd kv =? "")%string) (streams c)
  && match assoc "flac192" (streams c) with Some _ => true | None => false end.

(** ** URI helpers *)

(** The [for (const [key, channel] of Object.entries(this.channels))]
    loop of [getChannelFromUri]. *)
Fixpoint channel_by_shortcode (uri : string) (entries : list (string * Channel))
  : option string :=
  match entries with
  | [] => None
  | (key, channel) :: rest =>
      if includes (shortcode channel) uri then Some key
      else channel_by_shortcode uri rest
  end.

Definition getChannelFromUri (uri : option string) : string :=
  match uri with
  | None => "radio"
  | Some u =>
      if negb (truthy (VStr u)) then "radio"
      else
        let parts := split slash u in
        let fallback :=
          match channel_by_shortcode u channels with
          | Some key => key
          | None => "radio"
          end in
        match parts with
        | p0 :: channelKey :: _ =>
            if (p0 =? "motherearthradio")%string
               && found (obj_get channels channelKey)
            then channelKey
            else fallback
        | _ => fallback
        end
  end.

Definition quality_tiers : list string := ["flac192"; "flac96"; "aac"].

Definition getQualityFromUri (uri : option string) : string :=
  match uri with
  | None => "flac192"
  | Some u =>
      if negb (truthy (VStr u)) then "flac192"
      else
        let parts := split slash u in
        let fallback :=
          if includes ".flac-lo" u then "flac96"
          else if includes ".aac" u then "aac"
          else "flac192" in
        match parts with
        | p0 :: _ :: quality :: _ =>
            if (p0 =? "motherearthradio")%string
               && existsb (String.eqb quality) quality_tiers
            then quality
            else fallback
        | _ => fallback
        end
  end.

(** What evaluating [getStreamUrl(channelKey, quality)] does: return a
    value, or throw the [TypeError] of reading a property of
    [undefined]. *)
Inductive completion (A : Type) : Type :=
| Return (a : A)
| Throw.
Arguments Return {A} a.
Arguments Throw {A}.

Definition getStreamUrl (channelKey quality : string) : completion value :=
  match obj_get channels channelKey with
  | Missing => Return VNull
  | Inherited _ => Throw
  | Own channel =>
      Return (js_or (lookup_str (obj_get (streams channel) quality))
                    (lookup_str (obj_get (streams channel) "flac192")))
  end.

Definition labels : list (string * string) :=
  [ ("flac192", "FLAC 192kHz/24bit"); ("flac96", "FLAC 96kHz/24bit");
    ("aac", "AAC 96kHz") ].
Definition rates : list (string * string) :=
  [ ("flac192", "192 kHz"); ("flac96", "96 kHz"); ("aac", "96 kHz") ].
Definition depths : list (string * string) :=
  [ ("flac192", "24 bit"); ("flac96", "24 bit"); ("aac", "") ].

Definition getQualityLabel (quality : option string) : value :=
  js_or (lookup_str (obj_get labels (key_of quality))) (nullable quality).
Definition getSampleRate (quality : option string) : value :=
  js_or (lookup_str (obj_get rates (key_of quality))) (VStr "").
Definition getBitDepth (quality : option string) : value :=
  js_or (lookup_str (obj_get depths (key_of quality))) (VStr "").

(** ** Plugin instance, timers and observable effects *)

(** ToPrimitive raises a [TypeError] ("Cannot convert object to primitive
    value"), for the values [JSON.parse] returns.  The own properties of
    such an object are never callable, so an own [toString] hides
    [Object.prototype.toString] and leaves no method that returns a
    primitive ([Object.prototype.valueOf] returns the object itself, an
    own [valueOf] is skipped as well); without an own [toString] the
    object converts to ['[object Object]'].  An array converts through
    [join], which converts each element other than [null] in turn.
    Primitives and the inherited members (functions, the prototype
    object) always convert.  Both [ToNumber] (the operand of [*]) and
    [ToString] (a template literal) fail in exactly these cases. *)
Fixpoint coercion_throws (v : value) : bool :=
  match v with
  | VObj fields =>
      match assoc "toString" fields with Some _ => true | None => false end
  | VArr items => existsb coercion_throws items
  | _ => false
  end.

(** A number the plugin computes: a product of numbers, or the product
    with the number a non-number operand converts to, which is left
    unevaluated. *)
Inductive jsnum : Type :=
| JNum (n : Z)
| JCoerced (operand : value).

(** The value of [elapsed * 1000] when the conversion of [elapsed]
    completes. *)
Definition seek_ms (v : value) : jsnum :=
  match v with
  | VNum n => JNum (n * 1000)
  | _ => JCoerced v
  end.

(** [elapsed * 1000]: the product, or the [TypeError] of an operand that
    does not convert. *)
Definition times1000 (v : value) : completion jsnum :=
  if coercion_throws v then Throw else Return (seek_ms v).

(** The object handed to [servicePushState] while playing.  [status] is
    ['play'], [service] is [SERVICE_NAME], [streaming] and [isStreaming]
    are [true] in every such object; fields an object literal does not
    mention are [VUndef] or [None]. *)
Record PlayState : Type := mkPlay {
  st_title : value;
  st_artist : value;
  st_album : value;
  st_albumart : value;
  st_uri : option string;
  st_trackType : value;
  st_seek : option jsnum;
  st_duration : value;
  st_samplerate : value;
  st_bitdepth : value;
  st_channels : value;
  st_repeat_flags : bool
}.

(** [this.state]: [{}], [{status: 'stop', ...}] or a playing state. *)
Inductive PState : Type :=
| StInit
| StStop
| StPlay (p : PlayState).


Record Plugin : Type := mkPlugin {
  state : PState;
  currentUri : option string;
  currentChannel : option string;
  currentQuality : option string;
  sseRequest : option nat;
  sseReconnectAttempts : Z;
  sseReconnectTimer : option nat;
  metadataDelay : Z;
  highLatencyMode : bool
}.

(** What a timer runs when it fires. *)
Inductive Callback : Type :=
| CbUpdateMetadata (song duration elapsed np : value)
| CbConnectSSE (sseUrl channelKey : string).

Record Timer : Type := mkTimer {
  t_id : nat;
  t_due : Z;
  t_cb : Callback
}.

(** Calls into the host.  The plugin's trace lists them in the order
    they are made, each with the time of the call. *)
Inductive Effect : Type :=
| EPushState (s : PState)
| EToast (kind title message : string)
| EMpd (cmd : string)
| EMpdStop
| EHttpGet (request : nat) (url : string)
| EDestroy (request : nat).

(** The plugin instance together with the event loop it runs in. *)
Record World : Type := mkWorld {
  self : Plugin;
  clock : Z;
  timers : list Timer;
  next_handle : nat;
  effects : list (Z * Effect)
}.

Definition with_self (f : Plugin -> Plugin) (w : World) : World :=
  mkWorld (f (self w)) (clock w) (timers w) (next_handle w) (effects w).

Definition emit (e : Effect) (w : World) : World :=
  mkWorld (self w) (clock w) (timers w) (next_handle w)
          (effects w ++ [(clock w, e)]).

Definition set_state (s : PState) (p : Plugin) : Plugin :=
  mkPlugin s (currentUri p) (currentChannel p) (currentQuality p)
    (sseRequest p) (sseReconnectAttempts p) (sseReconnectTimer p)
    (metadataDelay p) (highLatencyMode p).

Definition set_current (uri channel quality : option string) (p : Plugin) : Plugin :=
  mkPlugin (state p) uri channel quality
    (sseRequest p) (sseReconnectAttempts p) (sseReconnectTimer p)
    (metadataDelay p) (highLatencyMode p).

Definition set_sseRequest (r : option nat) (p : Plugin) : Plugin :=
  mkPlugin (state p) (currentUri p) (currentChannel p) (currentQuality p)
    r (sseReconnectAttempts p) (sseReconnectTimer p)
    (metadataDelay p) (highLatencyMode p).

Definition set_sseReconnectAttempts (n : Z) (p : Plugin) : Plugin :=
  mkPlugin (state p) (currentUri p) (currentChannel p) (currentQuality p)
    (sseRequest p) n (sseReconnectTimer p)
    (metadataDelay p) (highLatencyMode p).

Definition set_sseReconnectTimer (t : option nat) (p : Plugin) : Plugin :=
  mkPlugin (state p) (currentUri p) (currentChannel p) (currentQuality p)
    (sseRequest p) (sseReconnectAttempts p) t
    (metadataDelay p) (highLatencyMode p).

(** [setTimeout(cb, delay)]: a one-shot timer due [delay] ms from now. *)
Definition setTimeout (cb : Callback) (delay : Z) (w : World) : nat * World :=
  let id := next_handle w in
  (id, mkWorld (self w) (clock w)
         (timers w ++ [mkTimer id (clock w + delay) cb])
         (S id) (effects w)).

(** [clearTimeout(id)]. *)
Definition clearTimeout (id : nat) (w : World) : World :=
  mkWorld (self w) (clock w)
    (filter (fun t => negb (Nat.eqb (t_id t) id)) (timers w))
    (next_handle w) (effects w).

(** The two class based revisions of the plugin. *)
Inductive revision : Type := RevA | RevB.

Definition logo_svg : string :=
  "/albumart?sourceicon=music_service/motherearthradio/motherearthlogo.svg".
Definition logo_png : string :=
  "/albumart?sourceicon=music_service/motherearthradio/mer-logo-cube-bold-1x 512.png".

(** ** Delay scheduler *)

Definition getEffectiveDelay (p : Plugin) : Z :=
  let delay := if metadataDelay p =? 0 then 0 else metadataDelay p in
  let delay := if highLatencyMode p then delay + HIGH_LATENCY_DELAY_MS else delay in
  Z.max 0 delay.

(** [this.channels[this.currentChannel].name], when the lookup is truthy. *)
Definition channel_name (l : lookup Channel) : value :=
  match l with
  | Own c => VStr (name c)
  | Inherited m => builtin_name m
  | Missing => VUndef
  end.

Definition uri_is_aac (p : Plugin) : bool :=
  match currentUri p with
  | Some u => includes ".aac" u
  | None => false
  end.

(** The state object [updateMetadata] builds, per revision, when the
    conversion of [elapsed] completes ([updateMetadata_completion] has
    the other case). *)
Definition metadata_state (rev : revision) (p : Plugin) (channel : lookup Channel)
    (song duration elapsed : value) : PlayState :=
  match rev with
  | RevA =>
      mkPlay (js_or (get song "title") (VStr "Unknown"))
             (js_or (get song "artist") (channel_name channel))
             (js_or (get song "album") (getQualityLabel (currentQuality p)))
             (js_or (get song "art") (VStr logo_svg))
             (currentUri p)
             (VStr (if match currentQuality p with
                        | Some q => (q =? "aac")%string
                        | None => false
                        end then "aac" else "flac"))
             (Some (seek_ms elapsed))
             duration
             (getSampleRate (currentQuality p))
             (getBitDepth (currentQuality p))
             (VNum 2)
             false
  | RevB =>
      mkPlay (js_or (get song "title") (VStr "Unknown"))
             (js_or (get song "artist") (channel_name channel))
             (js_or (get song "album") (VStr ""))
             (js_or (get song "art") (VStr logo_png))
             (currentUri p)
             (VStr (if uri_is_aac p then "aac" else "flac"))
             (Some (seek_ms elapsed))
             duration
             (VStr (if uri_is_aac p then "44.1 kHz" else "96 kHz"))
             (VStr (if uri_is_aac p then "16 bit" else "24 bit"))
             (VNum 2)
             true
  end.

(** [updateMetadata] when it completes: the event is dropped without a
    current channel, and else the state is stored and published. *)
Definition updateMetadata (rev : revision) (song duration elapsed np : value)
    (w : World) : World :=
  let channel := obj_get channels (key_of (currentChannel (self w))) in
  if negb (found channel) then w
  else
    let st := StPlay (metadata_state rev (self w) channel song duration elapsed) in
    emit (EPushState st) (with_self (set_state st) w).

(** [updateMetadata] with its abrupt completion: [elapsed * 1000] is
    evaluated while the state object is built, after the channel test
    and before [this.state] is assigned and [servicePushState] is
    called, so a [TypeError] leaves the plugin as it was and reaches the
    caller (the data listener or the timer). *)
Definition updateMetadata_completion (rev : revision)
    (song duration elapsed np : value) (w : World) : completion World :=
  let channel := obj_get channels (key_of (currentChannel (self w))) in
  if negb (found channel) then Return w
  else
    match times1000 elapsed with
    | Throw => Throw
    | Return _ =>
        let st := StPlay (metadata_state rev (self w) channel song duration elapsed) in
        Return (emit (EPushState st) (with_self (set_state st) w))
    end.

(** ** Envelope decoder *)

(** The guards of [processNowPlayingData]: the arguments it passes on to
    [updateMetadata] ([song], [duration], [elapsed], [np]), or nothing
    when the payload carries no song. *)
Definition decode (data : value) : option (value * value * value * value) :=
  let np := js_or (opt_get (opt_get (opt_get data "pub") "data") "np")
                  (opt_get data "np") in
  if negb (truthy np) || negb (truthy (get np "now_playing")) then None
  else
    let now_playing := get np "now_playing" in
    let song := get now_playing "song" in
    let duration := js_or (get now_playing "duration") (VNum 0) in
    let elapsed := js_or (get now_playing "elapsed") (VNum 0) in
    if negb (truthy song) then None
    else Some (song, duration, elapsed, np).

(** The now-playing structure and the song of a payload, as [decode]
    reads them. *)
Definition np_of (data : value) : value :=
  js_or (opt_get (opt_get (opt_get data "pub") "data") "np") (opt_get data "np").

Definition song_of (data : value) : value :=
  get (get (np_of data) "now_playing") "song".


(** The hand-off of one decoded event: the tail of
    [processNowPlayingData]. *)
Definition schedule (rev : revision) (ev : value * value * value * value)
    (w : World) : World :=
  let '(song, duration, elapsed, np) := ev in
  let delay := getEffectiveDelay (self w) in
  if 0 <? delay
  then snd (setTimeout (CbUpdateMetadata song duration elapsed np) delay w)
  else updateMetadata rev song duration elapsed np w.

Definition processNowPlayingData (rev : revision) (data : value)
    (channelKey : string) (w : World) : World :=
  match decode data with
  | None => w
  | Some ev => schedule rev ev w
  end.

(** The log line of [processNowPlayingData] puts [song.artist] and
    [song.title] into a template literal, which converts them to
    strings, the artist first. *)
Definition log_throws (song : value) : bool :=
  coercion_throws (get song "artist") || coercion_throws (get song "title").

(** [processNowPlayingData] with its abrupt completions: the log line
    comes before the hand-off, and an event handed on at once completes
    as [updateMetadata] does. *)
Definition processNowPlayingData_completion (rev : revision) (data : value)
    (channelKey : string) (w : World) : completion World :=
  match decode data with
  | None => Return w
  | Some (song, duration, elapsed, np) =>
      if log_throws song then Throw
      else
        let delay := getEffectiveDelay (self w) in
        if 0 <? delay
        then Return (snd (setTimeout (CbUpdateMetadata song duration elapsed np)
                            delay w))
        else updateMetadata_completion rev song duration elapsed np w
  end.

Definition isArray (v : value) : bool :=
  match v with VArr _ => true | _ => false end.

Definition array_items (v : value) : list value :=
  match v with VArr l => l | _ => [] end.

(** The part of [handleSSEMessage] after the [data: ] lines are parsed. *)
Definition handleSSEData (rev : revision) (data : value) (channelKey : string)
    (w : World) : World :=
  if negb (truthy data) then w
  else if truthy (get data "connect") then
    let initial := get (get data "connect") "data" in
    if truthy initial && isArray initial
    then fold_left (fun acc item => processNowPlayingData rev item channelKey acc)
                   (array_items initial) w
    else w
  else processNowPlayingData rev data channelKey w.

Section Decoder.

(** [JSON.parse], [None] when it throws. *)
Variable JSON_parse : string -> option value.

(** The loop over the lines of a frame: the last payload that parses. *)
Definition parse_lines (lines : list string) : value :=
  fold_left
    (fun data line =>
       if startsWith "data: " line
       then match JSON_parse (substring_from 6 line) with
            | Some v => v
            | None => data
            end
       else data)
    lines VNull.

Definition handleSSEMessage (rev : revision) (message channelKey : string)
    (w : World) : World :=
  handleSSEData rev (parse_lines (split newline message)) channelKey w.

End Decoder.

(** ** Connection manager *)

(** [https.request(options, ...)] followed by [this.sseRequest.end()]:
    the request becomes the current one.  Its callbacks are
    [sse_callback] below. *)
Definition connectSSE (sseUrl channelKey : string) (w : World) : World :=
  let request := next_handle w in
  emit (EHttpGet request sseUrl)
    (mkWorld (set_sseRequest (Some request) (self w)) (clock w) (timers w)
             (S request) (effects w)).

Definition scheduleSSEReconnect (sseUrl channelKey : string) (w : World) : World :=
  if SSE_MAX_RECONNECT_ATTEMPTS <=? sseReconnectAttempts (self w)
  then emit (EToast "error" "PLUGIN_NAME" "ERROR_STREAM_SERVER") w
  else
    let attempts := sseReconnectAttempts (self w) + 1 in
    let w1 := with_self (set_sseReconnectAttempts attempts) w in
    let delay := SSE_RECONNECT_DELAY_MS * attempts in
    let (id, w2) := setTimeout (CbConnectSSE sseUrl channelKey) delay w1 in
    with_self (set_sseReconnectTimer (Some id)) w2.

Definition stopSSE (w : World) : World :=
  let w1 :=
    match sseReconnectTimer (self w) with
    | Some id => with_self (set_sseReconnectTimer None) (clearTimeout id w)
    | None => w
    end in
  let w2 :=
    match sseRequest (self w1) with
    | Some request =>
        with_self (set_sseRequest None) (emit (EDestroy request) w1)
    | None => w1
    end in
  with_self (set_sseReconnectAttempts 0) w2.

(** The subscription URL of [startSSE]:
    [encodeURIComponent(JSON.stringify({subs: {['station:' + shortcode]: {}}}))]
    appended to the endpoint. *)
Definition sse_url (code : string) : string :=
  ("https://" ++ apiHost ++ "/api/live/nowplaying/sse?cf_connect="
   ++ "%7B%22subs%22%3A%7B%22station%3A" ++ code ++ "%22%3A%7B%7D%7D%7D")%string.

Definition startSSE (channelKey : string) (w : World) : World :=
  let w1 := stopSSE w in
  match obj_get channels channelKey with
  | Missing => w1
  | Own channel => connectSSE (sse_url (shortcode channel)) channelKey w1
  | Inherited _ => connectSSE (sse_url "undefined") channelKey w1
  end.

(** What a request and its response report to the callbacks that
    [connectSSE] registers. *)
Inductive SseEvent : Type :=
| Response (statusCode : Z)
| Frame (data : value)
| End
| Error
| RequestError.

Definition sse_callback (rev : revision) (sseUrl channelKey : string)
    (ev : SseEvent) (w : World) : World :=
  match ev with
  | Response statusCode =>
      if negb (statusCode =? 200)
      then scheduleSSEReconnect sseUrl channelKey w
      else with_self (set_sseReconnectAttempts 0) w
  | Frame data => handleSSEData rev data channelKey w
  | End | Error | RequestError => scheduleSSEReconnect sseUrl channelKey w
  end.

(** ** Event loop: firing timers *)

Definition run_callback (rev : revision) (cb : Callback) (w : World) : World :=
  match cb with
  | CbUpdateMetadata song duration elapsed np =>
      updateMetadata rev song duration elapsed np w
  | CbConnectSSE sseUrl channelKey => connectSSE sseUrl channelKey w
  end.

(** A pending timer fires: it leaves the timer list, the clock is at its
    due time (or later), its callback runs. *)
Definition fire (rev : revision) (t : Timer) (w : World) : World :=
  run_callback rev (t_cb t)
    (mkWorld (self w) (Z.max (clock w) (t_due t))
       (filter (fun t' => negb (Nat.eqb (t_id t') (t_id t))) (timers w))
       (next_handle w) (effects w)).

(** The pending timer that is due first, the oldest among equals. *)
Fixpoint earliest (l : list Timer) : option Timer :=
  match l with
  | [] => None
  | t :: rest =>
      match earliest rest with
      | Some t' => if t_due t' <? t_due t then Some t' else Some t
      | None => Some t
      end
  end.

Definition due_by (limit : Z) (l : list Timer) : list Timer :=
  filter (fun t => t_due t <=? limit) l.

Fixpoint run_timers (rev : revision) (fuel : nat) (limit : Z) (w : World) : World :=
  match fuel with
  | O => w
  | S fuel' =>
      match earliest (due_by limit (timers w)) with
      | Some t => run_timers rev fuel' limit (fire rev t w)
      | None => w
      end
  end.

(** Time passes until [limit]: every timer due by then fires, in order.
    No callback of the plugin arms a timer, so the timers pending at the
    start are all there is to fire. *)
Definition advance (rev : revision) (limit : Z) (w : World) : World :=
  let w' := run_timers rev (List.length (timers w)) limit w in
  mkWorld (self w') (Z.max (clock w') limit) (timers w') (next_handle w')
          (effects w').

(** ** Playback session *)

(** The transport: what [mpdPlugin.sendMpdCommand(cmd, [])] settles to,
    [None] when fulfilled and [Some err] when rejected with [err]. *)
Definition transport : Type := string -> option string.

(** What a call of the session returns: a promise that is fulfilled or
    rejected, or an exception thrown before any promise is returned. *)
Inductive Outcome : Type :=
| Resolved
| Rejected (reason : string)
| Threw.

(** The chain [sendMpdCommand(c1).then(() => sendMpdCommand(c2))...]: the
    commands are sent one after the other until one is rejected. *)
Fixpoint send_all (mpd : transport) (cmds : list string) (w : World)
  : option string * World :=
  match cmds with
  | [] => (None, w)
  | cmd :: rest =>
      let w' := emit (EMpd cmd) w in
      match mpd cmd with
      | Some err => (Some err, w')
      | None => send_all mpd rest w'
      end
  end.

(** The commands of a chain that are sent, and the rejection that ends
    it, if any. *)
Fixpoint sent_until (mpd : transport) (cmds : list string) : list string :=
  match cmds with
  | [] => []
  | cmd :: rest =>
      cmd :: match mpd cmd with
             | Some _ => []
             | None => sent_until mpd rest
             end
  end.

Fixpoint first_failure (mpd : transport) (cmds : list string) : option string :=
  match cmds with
  | [] => None
  | cmd :: rest =>
      match mpd cmd with
      | Some err => Some err
      | None => first_failure mpd rest
      end
  end.

Definition mpd_commands (streamUrl : string) : list string :=
  [ "stop"; "clear"; ("add " ++ dquote ++ streamUrl ++ dquote)%string; "play" ].

(** ['add "' + streamUrl + '"'] converts [streamUrl] to a string; the
    truthy results of [getStreamUrl] are strings and inherited members. *)
Definition to_string (v : value) : string :=
  match v with
  | VStr s => s
  | VBuiltin m => builtin_to_string m
  | _ => ""
  end.

(** The provisional state published once the transport plays. *)
Definition connecting_state (rev : revision) (p : Plugin) (uri : option string)
  : PlayState :=
  let channel := obj_get channels (key_of (currentChannel p)) in
  let title := js_or (channel_name channel) (VStr "Mother Earth Radio") in
  match rev with
  | RevA =>
      mkPlay title (VStr "Connecting...") (getQualityLabel (currentQuality p))
             (VStr logo_svg) uri
             (VStr (if match currentQuality p with
                        | Some q => (q =? "aac")%string
                        | None => false
                        end then "aac" else "flac"))
             (Some (JNum 0)) (VNum 0)
             (getSampleRate (currentQuality p)) (getBitDepth (currentQuality p))
             VUndef false
  | RevB =>
      mkPlay title (VStr "Connecting...") (getQualityLabel (currentQuality p))
             (VStr logo_png) uri VUndef None VUndef
             (getSampleRate (currentQuality p)) (getBitDepth (currentQuality p))
             VUndef false
  end.

Definition clearAddPlayTrack (rev : revision) (mpd : transport)
    (uri : option string) (w : World) : Outcome * World :=
  let w0 := match rev with RevA => stopSSE w | RevB => w end in
  let channel := getChannelFromUri uri in
  let quality := getQualityFromUri uri in
  let w1 := with_self (set_current uri (Some channel) (Some quality)) w0 in
  match getStreamUrl channel quality with
  | Throw => (Threw, w1)
  | Return streamUrl =>
      if negb (truthy streamUrl) then (Rejected "Unknown channel", w1)
      else
        let w2 := startSSE channel w1 in
        match send_all mpd (mpd_commands (to_string streamUrl)) w2 with
        | (Some err, w3) => (Rejected err, w3)
        | (None, w3) =>
            let st := StPlay (connecting_state rev (self w3) uri) in
            (Resolved, emit (EPushState st) (with_self (set_state st) w3))
        end
  end.

Definition stop (w : World) : World :=
  let w1 := stopSSE w in
  emit EMpdStop (emit (EPushState StStop) (with_self (set_state StStop) w1)).

(** A started plugin that has played nothing yet, with the two settings
    given. *)
Definition started (delay : Z) (highLatency : bool) : World :=
  mkWorld (mkPlugin StInit None None None None 0 None delay highLatency)
          0 [] 0 [].

(** The states pushed to the front end, oldest first. *)
Definition pushed (w : World) : list PState :=
  flat_map (fun e => match snd e with EPushState s => [s] | _ => [] end)
           (effects w).

(** The error toasts shown to the user. *)
Definition toasts (w : World) : list (Z * Effect) :=
  filter (fun e => match snd e with EToast _ _ _ => true | _ => false end)
         (effects w).

(** The transport commands sent. *)
Definition mpd_sent (w : World) : list string :=
  flat_map (fun e => match snd e with EMpd c => [c] | _ => [] end) (effects w).

(** What [w'] did after [w]. *)
Definition since (w w' : World) : list (Z * Effect) :=
  skipn (List.length (effects w)) (effects w').

(** What tears the previous request down when a new play starts. *)
Definition destroyed (w : World) : list (Z * Effect) :=
  match sseRequest (self w) with
  | Some request => [(clock w, EDestroy request)]
  | None => []
  end.

(** What timers and callbacks leave alone: the track being played, the
    settings and the handle of the reconnect timer. *)
Definition same_session (p p' : Plugin) : Prop :=
  currentUri p = currentUri p' /\
  currentChannel p = currentChannel p' /\
  currentQuality p = currentQuality p' /\
  sseReconnectTimer p = sseReconnectTimer p' /\
  metadataDelay p = metadataDelay p' /\
  highLatencyMode p = highLatencyMode p'.

(** ** Failure streaks of the connection manager *)

(** A callback that takes the retry path. *)
Definition is_failure (ev : SseEvent) : bool :=
  match ev with
  | Response statusCode => negb (statusCode =? 200)
  | Frame _ => false
  | End | Error | RequestError => true
  end.

(** The reconnect timer that is armed and has not fired, if any. *)
Definition pending_reconnect (w : World) : option Timer :=
  match sseReconnectTimer (self w) with
  | Some id => find (fun t => Nat.eqb (t_id t) id) (timers w)
  | None => None
  end.

(** The pending reconnect, if there is one, fires: the next connection
    attempt is made. *)
Definition retry_fires (rev : revision) (w : World) : World :=
  match pending_reconnect w with
  | Some t => fire rev t w
  | None => w
  end.

(** Consecutive failures: each event of [evs] is the failure of the
    attempt in flight, and the reconnect armed by the previous failure
    fires in between. *)
Definition streak (rev : revision) (sseUrl channelKey : string)
    (evs : list SseEvent) (w : World) : World :=
  fold_left
    (fun acc ev => sse_callback rev sseUrl channelKey ev (retry_fires rev acc))
    evs w.

(** The SSE requests opened, oldest first. *)
Definition requests (w : World) : list nat :=
  flat_map (fun e => match snd e with EHttpGet r _ => [r] | _ => [] end)
           (effects w).

Definition toast_exhausted : Effect :=
  EToast "error" "PLUGIN_NAME" "ERROR_STREAM_SERVER".

(** The state of a failure streak that began in [w0], after [k] failures:
    the counter is [k], no toast was shown, [k - 1] reconnects were made
    and the [k]-th is armed, [3000 * k] ms after the failure. *)
Definition armed (sseUrl channelKey : string) (k : Z) (w0 w : World) : Prop :=
  sseReconnectAttempts (self w) = k /\
  toasts w = toasts w0 /\
  Forall (fun t => (t_id t < next_handle w0)%nat) (timers w0) /\
  (next_handle w0 <= next_handle w)%nat /\
  if k =? 0
  then timers w = timers w0 /\ pending_reconnect w = None /\
       requests w = requests w0
  else exists id,
      (next_handle w0 <= id < next_handle w)%nat /\
      sseReconnectTimer (self w) = Some id /\
      timers w = timers w0
                 ++ [mkTimer id (clock w + SSE_RECONNECT_DELAY_MS * k)
                       (CbConnectSSE sseUrl channelKey)] /\
      Z.of_nat (List.length (requests w)) =
        Z.of_nat (List.length (requests w0)) + k - 1.


(** ** The prototype based revision ([index.js]) *)

Module Legacy.

(** [handleMetadata]: the delay, in ms, of the timer it arms for every
    event; the setting is in seconds and there is no high-latency
    offset. *)
Definition handleMetadata_delay (metadataDelay : Z) : Z := metadataDelay * 1000.

(** [startSSE]: the fixed delays of its two retry timers.  There is no
    attempt counter. *)
Definition reconnect_delay (ev : SseEvent) : option Z :=
  match ev with
  | End => Some 5000
  | RequestError => Some 10000
  | _ => None
  end.

(** The fields [pushMetadata] extracts from the song. *)
Record Metadata : Type := mkMetadata {
  title : value;
  artist : value;
  album : value;
  albumart : value;
  seek : Z;
  duration : Z
}.

Definition pushMetadata (song : value) : Metadata :=
  mkMetadata (js_or (get song "title") (VStr "Mother Earth Radio"))
             (js_or (get song "artist") (VStr ""))
             (js_or (get song "album") (VStr ""))
             (js_or (get song "art") (VStr logo_png))
             0 0.

(** The log line that ends [pushMetadata], after the state has been
    published, converts [song.artist] and [song.title] to strings:
    whether it raises a [TypeError]. *)
Definition pushMetadata_throws (song : value) : bool :=
  coercion_throws (get song "artist") || coercion_throws (get song "title").

End Legacy.

(** ** Stream reassembly *)

(** Prepending a character to the first piece of a split. *)
Definition cons_head (c : ascii) (pieces : list string) : list string :=
  match pieces with
  | [] => [String c EmptyString]
  | hd :: tl => String c hd :: tl
  end.

(** [buffer.split('\n\n')]: the pieces between the blank-line
    delimiters, found from the left. *)
Fixpoint split_blank (s : string) : list string :=
  match s with
  | EmptyString => [EmptyString]
  | String c rest =>
      match rest with
      | String c' rest' =>
          if Ascii.eqb c newline && Ascii.eqb c' newline
          then EmptyString :: split_blank rest'
          else cons_head c (split_blank rest)
      | EmptyString => [String c EmptyString]
      end
  end.

(** [pieces.join(sep)]. *)
Fixpoint join (sep : string) (pieces : list string) : string :=
  match pieces with
  | [] => EmptyString
  | hd :: tl =>
      match tl with
      | [] => hd
      | _ :: _ => (hd ++ sep ++ join sep tl)%string
      end
  end.

Definition blank_line : string := String newline (String newline EmptyString).

(** The [data] handler of [connectSSE] once the chunk is decoded, up to
    the calls of [handleSSEMessage]: the text [chunk.toString()] gave is
    appended to the buffer, the complete messages are taken off and the
    trailing fragment is kept. *)
Definition feed (buffer text : string) : list string * string :=
  let messages := split_blank (buffer ++ text) in
  (removelast messages, last messages EmptyString).


Section DataHandler.

(** [Buffer.prototype.toString()]: the bytes of one chunk decoded as
    UTF-8, each chunk on its own (the response has no encoding set, so
    its chunks are buffers).  A character whose bytes are cut by a chunk
    boundary is not put together again: each part decodes to
    replacement characters. *)
Variable toString : list Byte.byte -> string.

Variable JSON_parse : string -> option value.

(** The [data] handler of [connectSSE]: the closure variable [buffer] is
    threaded with the plugin. *)
Definition onData (rev : revision) (channelKey : string)
    (bw : string * World) (chunk : list Byte.byte) : string * World :=
  let (messages, buffer') := feed (fst bw) (toString chunk) in
  (buffer',
   fold_left (fun acc message => handleSSEMessage JSON_parse rev message channelKey acc)
             messages (snd bw)).

End DataHandler.

(** ** Browsing *)

Record BrowseItem : Type := mkBrowseItem {
  b_type : string;
  b_title : string;
  b_album : string;
  b_uri : string
}.

(** The three items [browseRoot] pushes for one entry of the channel
    table. *)
Definition browse_entry (rev : revision) (entry : string * Channel)
  : list BrowseItem :=
  let (key, channel) := entry in
  let type := match rev with RevA => "mywebradio" | RevB => "song" end in
  [ mkBrowseItem type (name channel ++ " (FLAC 192kHz/24bit)")%string
      "Hi-Res Lossless" ("motherearthradio/" ++ key ++ "/flac192")%string;
    mkBrowseItem type (name channel ++ " (FLAC 96kHz/24bit)")%string
      "Lossless" ("motherearthradio/" ++ key ++ "/flac96")%string;
    mkBrowseItem type (name channel ++ " (AAC 96kHz)")%string
      "High Quality" ("motherearthradio/" ++ key ++ "/aac")%string ].

(** The items of the list [browseRoot] resolves to. *)
Definition browseRoot (rev : revision) : list BrowseItem :=
  flat_map (browse_entry rev) channels.

(** [handleBrowseUri]: the root listing or an empty one. *)
Definition handleBrowseUri (rev : revision) (uri : string) : list BrowseItem :=
  match rev with
  | RevA => if startsWith "motherearthradio" uri then browseRoot rev else []
  | RevB => if (uri =? "motherearthradio")%string then browseRoot rev else []
  end.

(** The track [explodeUri] resolves to. *)
Record Track : Type := mkTrack {
  tr_trackType : string;
  tr_title : string;
  tr_album : value;
  tr_uri : option string;
  tr_realUri : value;
  tr_samplerate : value;
  tr_bitdepth : value
}.

Inductive Exploded : Type :=
| ExResolved (track : Track)
| ExRejected (reason : string)
| ExThrew.

Definition explodeUri (rev : revision) (uri : option string) : Exploded :=
  let channelKey := getChannelFromUri uri in
  let quality := getQualityFromUri uri in
  let channel := obj_get channels channelKey in
  if negb (found channel) then ExRejected "Unknown channel"
  else
    match getStreamUrl channelKey quality with
    | Throw => ExThrew
    | Return streamUrl =>
        let qualityLabel := getQualityLabel (Some quality) in
        let title := (to_string (channel_name channel) ++ " ("
                      ++ to_string qualityLabel ++ ")")%string in
        ExResolved
          (mkTrack
             match rev with
             | RevA => if (quality =? "aac")%string then "aac" else "flac"
             | RevB => if startsWith "flac" quality then "flac" else "aac"
             end
             title qualityLabel uri
             match rev with RevA => VUndef | RevB => streamUrl end
             (getSampleRate (Some quality)) (getBitDepth (Some quality)))
    end.

(** ** Pause, resume, plugin stop, diagnostics *)


Definition resume (rev : revision) (mpd : transport) (w : World) : Outcome * World :=
  if truthy (nullable (currentUri (self w)))
  then clearAddPlayTrack rev mpd (currentUri (self w)) w
  else (Resolved, w).


(** The connection and delay fields of [getDiagnostics]. *)
Record Diagnostics : Type := mkDiagnostics {
  sseConnected : bool;
  diag_attempts : Z;
  effectiveDelay : Z
}.

Definition getDiagnostics (w : World) : Diagnostics :=
  mkDiagnostics
    match sseRequest (self w) with Some _ => true | None => false end
    (sseReconnectAttempts (self w))
    (getEffectiveDelay (self w)).



(** A timer that reconnects. *)
Definition is_connect (cb : Callback) : bool :=
  match cb with CbConnectSSE _ _ => true | CbUpdateMetadata _ _ _ _ => false end.





(** ** Settings *)

Definition HIGH_LATENCY_BUFFER_KB : Z := 32768.
Definition NORMAL_BUFFER_KB : Z := 4096.

(** The plugin's configuration file, as [config.get] reads it:
    [undefined] for a key that was never set. *)
Record Config : Type := mkConfig {
  cfg_apiDelay : option Z;
  cfg_highLatencyMode : option bool
}.

(** The plugin with its configuration and the MPD plugin's: [None] when
    the MPD plugin or its configuration is not available, else the value
    stored under [audio_buffer_size], if any. *)
Record Host : Type := mkHost {
  world : World;
  config : Config;
  mpd_buffer : option (option Z)
}.

(** [x || d] for a number that may be [undefined]. *)
Definition num_or (x : option Z) (d : Z) : Z :=
  match x with
  | Some n => if n =? 0 then d else n
  | None => d
  end.

(** [x || false] for a boolean that may be [undefined]. *)
Definition bool_or_false (x : option bool) : bool :=
  match x with Some b => b | None => false end.

Definition applyHighLatencyBuffer (h : Host) : bool * Host :=
  match mpd_buffer h with
  | None => (false, h)
  | Some stored =>
      let currentBuffer := num_or stored NORMAL_BUFFER_KB in
      if currentBuffer <? HIGH_LATENCY_BUFFER_KB
      then (true, mkHost (world h) (config h) (Some (Some HIGH_LATENCY_BUFFER_KB)))
      else (true, h)
  end.

Definition restoreNormalBuffer (h : Host) : bool * Host :=
  match mpd_buffer h with
  | None => (false, h)
  | Some _ => (true, mkHost (world h) (config h) (Some (Some NORMAL_BUFFER_KB)))
  end.

Definition set_settings (delay : Z) (highLatency : bool) (p : Plugin) : Plugin :=
  mkPlugin (state p) (currentUri p) (currentChannel p) (currentQuality p)
    (sseRequest p) (sseReconnectAttempts p) (sseReconnectTimer p)
    delay highLatency.

Definition successToast (messageKey : string) (h : Host) : Host :=
  mkHost (emit (EToast "success" "PLUGIN_NAME" messageKey) (world h))
         (config h) (mpd_buffer h).

(** [saveConfig(data)], for a form that delivers a number (or nothing)
    as [apiDelay] and a boolean (or nothing) as [highLatencyMode]. *)
Definition saveConfig (apiDelay : option Z) (highLatencyMode : option bool)
    (h : Host) : Host :=
  let oldHighLatencyMode := bool_or_false (cfg_highLatencyMode (config h)) in
  let newHighLatencyMode := bool_or_false highLatencyMode in
  let h1 :=
    mkHost (with_self (set_settings (num_or apiDelay 0) newHighLatencyMode) (world h))
           (mkConfig (Some (num_or apiDelay 0)) (Some newHighLatencyMode))
           (mpd_buffer h) in
  if newHighLatencyMode && negb oldHighLatencyMode
  then successToast "HIGH_LATENCY_ENABLED" (snd (applyHighLatencyBuffer h1))
  else if negb newHighLatencyMode && oldHighLatencyMode
  then successToast "HIGH_LATENCY_DISABLED" (snd (restoreNormalBuffer h1))
  else successToast "SAVE_CONFIG_MESSAGE" h1.

(** What [onStart] does with the settings; it also looks up the MPD
    plugin, loads the strings and registers the browse source. *)
Definition onStart (h : Host) : Host :=
  let delay := num_or (cfg_apiDelay (config h)) 3 in
  let highLatency := bool_or_false (cfg_highLatencyMode (config h)) in
  let h1 := mkHost (with_self (set_settings delay highLatency) (world h))
                   (config h) (mpd_buffer h) in
  if highLatency then snd (applyHighLatencyBuffer h1) else h1.

(** The two values [getUIConfig] puts into the form: high-latency mode
    and delay. *)
Definition getUIConfig (h : Host) : bool * Z :=
  (bool_or_false (cfg_highLatencyMode (config h)),
   num_or (cfg_apiDelay (config h)) 0).

(** ** The transport chain of the prototype based revision *)

Module LegacyChain.

(** A promise that has settled. *)
Inductive Settled : Type :=
| Fulfilled
| Failed (err : string).

(** What the chain of [clearAddPlayTrack] in [index.js] does: the
    commands sent, whether the state was published, how the deferred
    was settled and how the promise returned to the caller was. *)
Record Run : Type := mkRun {
  sent : list string;
  published : bool;
  deferred : Settled;
  returned : Settled
}.

(** [p.then(() => sendMpdCommand(cmd))]: the command is sent when [p]
    is fulfilled; a rejection is passed on. *)
Definition then_send (mpd : transport) (cmd : string)
    (p : Settled * list string) : Settled * list string :=
  match fst p with
  | Fulfilled =>
      (match mpd cmd with Some err => Failed err | None => Fulfilled end,
       snd p ++ [cmd])
  | Failed err => (Failed err, snd p)
  end.

(** [p.fail(() => sendMpdCommand(cmd))]: the command is sent when [p]
    is rejected; a fulfilment is passed on. *)
Definition fail_send (mpd : transport) (cmd : string)
    (p : Settled * list string) : Settled * list string :=
  match fst p with
  | Fulfilled => p
  | Failed _ =>
      (match mpd cmd with Some err => Failed err | None => Fulfilled end,
       snd p ++ [cmd])
  end.

Definition chain (mpd : transport) (streamUrl : string) : Run :=
  let quoted := (dquote ++ streamUrl ++ dquote)%string in
  let p1 := then_send mpd "stop" (Fulfilled, []) in
  let p2 := then_send mpd "clear" p1 in
  let p3 := then_send mpd ("load " ++ quoted)%string p2 in
  let p4 := fail_send mpd ("add " ++ quoted)%string p3 in
  let p5 := then_send mpd "play" p4 in
  match fst p5 with
  | Fulfilled => mkRun (snd p5) true Fulfilled Fulfilled
  | Failed err => mkRun (snd p5) false (Failed err) Fulfilled
  end.

End LegacyChain.

(** ** The data handler of the prototype based revision *)

Module LegacyStream.

(** The text [chunk.toString()] gave is appended to the buffer;
    [buffer.split('\n')] and [lines.pop()]: the complete lines and the
    fragment kept. *)
Definition feed (buffer text : string) : list string * string :=
  let lines := split newline (buffer ++ text) in
  (removelast lines, last lines EmptyString).

Section Lines.

(** [Buffer.prototype.toString()], applied to each chunk on its own. *)
Variable toString : list Byte.byte -> string.

Variable JSON_parse : string -> option value.

(** What one line leads to: the song handed to [handleMetadata], or
    nothing for a line that is no [data: ] line, does not parse, or is an
    empty ping. *)
Definition line_song (line : string) : option value :=
  if startsWith "data: " line
  then match JSON_parse (substring_from 6 line) with
       | Some data =>
           if negb (truthy (get data "now_playing"))
              || negb (truthy (get (get data "now_playing") "song"))
           then None
           else Some (get (get data "now_playing") "song")
       | None => None
       end
  else None.

Definition songs_of (lines : list string) : list value :=
  flat_map (fun line => match line_song line with Some s => [s] | None => [] end)
           lines.

(** The [data] handler of [startSSE] in [index.js]: the songs handed to
    [handleMetadata] and the buffer left. *)
Definition onData (buffer : string) (chunk : list Byte.byte) : list value * string :=
  let (lines, buffer') := feed buffer (toString chunk) in
  (songs_of lines, buffer').

Fixpoint onData_all (buffer : string) (chunks : list (list Byte.byte))
  : list value * string :=
  match chunks with
  | [] => ([], buffer)
  | chunk :: rest =>
      let (songs, buffer') := onData buffer chunk in
      let (later, final) := onData_all buffer' rest in
      (songs ++ later, final)
  end.

End Lines.

End LegacyStream.

(** * Properties *)

(** ** Channel registry and URI helpers *)

Lemma assoc_In_pair {A : Type} (k : string) (l : list (string * A)) (a : A) :
  assoc k l = Some a -> In (k, a) l.
Proof.
  induction l as [|[k' a'] tl IH]; simpl; [discriminate|].
  destruct (String.eqb_spec k k') as [->|_]; intro H.
  - injection H as ->. now left.
  - right. now apply IH.
Qed.

Lemma assoc_In_key {A : Type} (k : string) (l : list (string * A)) (a : A) :
  assoc k l = Some a -> In k (map fst l).
Proof.
  intro H. apply assoc_In_pair in H.
  change k with (fst (k, a)). now apply in_map.
Qed.

Lemma assoc_None_not_key {A : Type} (k : string) (l : list (string * A)) :
  assoc k l = None -> ~ In k (map fst l).
Proof.
  induction l as [|[k' a'] tl IH]; simpl; [tauto|].
  destruct (String.eqb_spec k k') as [->|Hne]; [discriminate|].
  intros H [Heq|Hin]; [congruence | now apply IH].
Qed.

Lemma channel_by_shortcode_key (uri : string) (entries : list (string * Channel))
    (key : string) :
  channel_by_shortcode uri entries = Some key -> In key (map fst entries).
Proof.
  induction entries as [|[k c] tl IH]; simpl; [discriminate|].
  destruct (includes (shortcode c) uri); intro H.
  - injection H as ->. now left.
  - right. now apply IH.
Qed.

(** The key [getChannelFromUri] returns is one [this.channels] answers
    to: a key of the table, or the name of an inherited member. *)
Lemma getChannelFromUri_answers (uri : option string) :
  In (getChannelFromUri uri) (map fst channels) \/
  is_inherited (getChannelFromUri uri) = true.
Proof.
  assert (Hradio : In "radio" (map fst channels)) by (simpl; auto).
  assert (Hfallback : forall u,
             In (match channel_by_shortcode u channels with
                 | Some key => key
                 | None => "radio"
                 end) (map fst channels)).
  { intro u. destruct (channel_by_shortcode u channels) eqn:E; [|exact Hradio].
    eapply channel_by_shortcode_key; eassumption. }
  unfold getChannelFromUri.
  destruct uri as [u|]; [|now left].
  destruct (negb (truthy (VStr u))); [now left|].
  destruct (split slash u) as [|p0 [|channelKey rest]]; try (left; apply Hfallback).
  destruct ((p0 =? "motherearthradio")%string && found (obj_get channels channelKey))
    eqn:E; [|left; apply Hfallback].
  apply andb_true_iff in E as [_ E].
  unfold obj_get in E.
  destruct (assoc channelKey channels) eqn:Ea.
  - left. eapply assoc_In_key; eassumption.
  - destruct (is_inherited channelKey) eqn:Ei; [now right | discriminate].
Qed.

(** [getQualityFromUri] returns one of the three tiers, whatever the URI. *)
Lemma getQualityFromUri_tier (uri : option string) :
  In (getQualityFromUri uri) quality_tiers.
Proof.
  assert (Hfallback : forall u,
             In (if includes ".flac-lo" u then "flac96"
                 else if includes ".aac" u then "aac" else "flac192")
                quality_tiers).
  { intro u. destruct (includes ".flac-lo" u); [simpl; auto|].
    destruct (includes ".aac" u); simpl; auto. }
  unfold getQualityFromUri.
  destruct uri as [u|]; [|simpl; auto].
  destruct (negb (truthy (VStr u))); [simpl; auto|].
  destruct (split slash u) as [|p0 [|k [|quality rest]]]; try apply Hfallback.
  destruct ((p0 =? "motherearthradio")%string
            && existsb (String.eqb quality) quality_tiers) eqn:E;
    [|apply Hfallback].
  apply andb_true_iff in E as [_ E].
  apply existsb_exists in E as [q [Hin Heq]].
  apply String.eqb_eq in Heq. now subst.
Qed.


Lemma channels_streams_ok : forallb (fun kc => streams_ok (snd kc)) channels = true.
Proof. vm_compute. reflexivity. Qed.

Lemma own_channel_streams_ok (K : string) (c : Channel) :
  assoc K channels = Some c -> streams_ok c = true.
Proof.
  intro H. apply assoc_In_pair in H.
  pose proof channels_streams_ok as Hok.
  rewrite forallb_forall in Hok. exact (Hok _ H).
Qed.

Lemma own_stream_nonempty (c : Channel) (q u : string) :
  streams_ok c = true -> assoc q (streams c) = Some u -> u <> "".
Proof.
  intros Hok Hq. apply andb_true_iff in Hok as [Hall _].
  rewrite forallb_forall in Hall. apply assoc_In_pair in Hq.
  specialize (Hall _ Hq). simpl in Hall.
  intros ->. discriminate.
Qed.

(** For a channel of the table, [getStreamUrl] returns the URL of the
    tier asked for, or that of [flac192] when the tier has no entry. *)
Lemma getStreamUrl_own (K Q : string) (c : Channel) :
  assoc K channels = Some c -> is_inherited Q = false ->
  exists u, getStreamUrl K Q = Return (VStr u) /\ u <> "" /\
            (assoc Q (streams c) = Some u \/
             assoc Q (streams c) = None /\ assoc "flac192" (streams c) = Some u).
Proof.
  intros HK HQ. pose proof (own_channel_streams_ok _ _ HK) as Hok.
  unfold getStreamUrl, obj_get. rewrite HK.
  destruct (assoc Q (streams c)) as [u|] eqn:Eq.
  - exists u. pose proof (own_stream_nonempty _ _ _ Hok Eq) as Hne.
    unfold js_or. simpl. apply String.eqb_neq in Hne. rewrite Hne. simpl.
    repeat split; auto. now apply String.eqb_neq.
  - rewrite HQ. unfold js_or. simpl.
    destruct (assoc "flac192" (streams c)) as [u|] eqn:Ef.
    + exists u. repeat split; auto.
      eapply own_stream_nonempty; eassumption.
    + apply andb_true_iff in Hok as [_ Hok]. rewrite Ef in Hok. discriminate.
Qed.

Lemma tier_not_inherited (q : string) : In q quality_tiers -> is_inherited q = false.
Proof.
  simpl. intros [<-|[<-|[<-|[]]]]; reflexivity.
Qed.

(** On the key and tier derived from a URI, [getStreamUrl] never returns
    [null] (or any falsy value): the rejection branch of
    [clearAddPlayTrack] cannot be taken. *)
Lemma getStreamUrl_of_uri (uri : option string) (v : value) :
  getStreamUrl (getChannelFromUri uri) (getQualityFromUri uri) = Return v ->
  exists u, v = VStr u /\ u <> "".
Proof.
  intro H.
  pose proof (tier_not_inherited _ (getQualityFromUri_tier uri)) as HQ.
  destruct (assoc (getChannelFromUri uri) channels) as [c|] eqn:Ec.
  - destruct (getStreamUrl_own _ _ _ Ec HQ) as [u [Hu [Hne _]]].
    rewrite Hu in H. injection H as <-. now exists u.
  - destruct (getChannelFromUri_answers uri) as [Hin|Hinh].
    + now apply assoc_None_not_key in Ec.
    + unfold getStreamUrl, obj_get in H. rewrite Ec, Hinh in H. discriminate.
Qed.

(** ** Playback session *)

Lemma since_app (w w' : World) (d : list (Z * Effect)) :
  effects w' = effects w ++ d -> since w w' = d.
Proof.
  intro H. unfold since. rewrite H.
  rewrite skipn_app, skipn_all, Nat.sub_diag. reflexivity.
Qed.

Lemma send_all_spec (mpd : transport) (cmds : list string) (w : World) :
  send_all mpd cmds w =
  (first_failure mpd cmds,
   mkWorld (self w) (clock w) (timers w) (next_handle w)
     (effects w ++ map (fun c => (clock w, EMpd c)) (sent_until mpd cmds))).
Proof.
  revert w. induction cmds as [|cmd rest IH]; intro w; simpl.
  - rewrite app_nil_r. now destruct w.
  - destruct (mpd cmd) as [err|].
    + reflexivity.
    + rewrite IH. unfold emit. simpl. now rewrite <- app_assoc.
Qed.

Lemma sent_until_prefix (mpd : transport) (cmds : list string) :
  exists rest, cmds = sent_until mpd cmds ++ rest.
Proof.
  induction cmds as [|cmd tl [rest IH]]; simpl.
  - now exists [].
  - destruct (mpd cmd).
    + now exists tl.
    + exists rest. now rewrite <- IH.
Qed.

Lemma first_failure_None (mpd : transport) (cmds : list string) :
  first_failure mpd cmds = None <->
  (forall cmd, In cmd cmds -> mpd cmd = None).
Proof.
  induction cmds as [|cmd tl IH]; simpl.
  - split; [intros _ c [] | reflexivity].
  - destruct (mpd cmd) as [err|] eqn:E.
    + split; [discriminate|]. intro H. rewrite (H cmd) in E; [discriminate|now left].
    + rewrite IH. split.
      * intros H c [<-|Hin]; auto.
      * intros H c Hin. apply H. now right.
Qed.

Lemma first_failure_None_sent (mpd : transport) (cmds : list string) :
  first_failure mpd cmds = None -> sent_until mpd cmds = cmds.
Proof.
  induction cmds as [|cmd tl IH]; simpl; [reflexivity|].
  destruct (mpd cmd); [discriminate|]. intro H. now rewrite IH.
Qed.

Lemma first_failure_Some (mpd : transport) (cmds : list string) (err : string) :
  first_failure mpd cmds = Some err ->
  exists cmd, In cmd (sent_until mpd cmds) /\ mpd cmd = Some err.
Proof.
  induction cmds as [|cmd tl IH]; simpl; [discriminate|].
  destruct (mpd cmd) as [e|] eqn:E.
  - intro H. injection H as ->. exists cmd. split; [now left | assumption].
  - intro H. destruct (IH H) as [c [Hin Hc]]. exists c. split; [now right | assumption].
Qed.

(** The four shapes of [stopSSE]: with or without a timer to clear and a
    request to destroy. *)
Ltac stop_cases w :=
  let E := fresh "E" in
  let T := fresh "T" in
  destruct (sseReconnectTimer (self w)) eqn:T;
  destruct (sseRequest (self w)) eqn:E;
  unfold with_self, emit, clearTimeout, set_sseReconnectAttempts,
    set_sseReconnectTimer, set_sseRequest;
  simpl; rewrite ?E, ?T; simpl; rewrite ?E, ?T; simpl; rewrite ?app_nil_r;
  reflexivity.

(** [stopSSE] destroys the request, if there is one, and nothing else
    reaches the host. *)
Lemma stopSSE_effects (w : World) :
  effects (stopSSE w) =
  effects w ++ match sseRequest (self w) with
               | Some request => [(clock w, EDestroy request)]
               | None => []
               end.
Proof.
  unfold stopSSE. stop_cases w.
Qed.

Lemma stopSSE_self (w : World) :
  self (stopSSE w) =
  mkPlugin (state (self w)) (currentUri (self w)) (currentChannel (self w))
           (currentQuality (self w)) None 0 None
           (metadataDelay (self w)) (highLatencyMode (self w)).
Proof.
  unfold stopSSE. stop_cases w.
Qed.

Lemma stopSSE_clock (w : World) : clock (stopSSE w) = clock w.
Proof.
  unfold stopSSE. stop_cases w.
Qed.

Lemma stopSSE_next_handle (w : World) : next_handle (stopSSE w) = next_handle w.
Proof.
  unfold stopSSE. stop_cases w.
Qed.

Lemma stopSSE_timers (w : World) :
  timers (stopSSE w) =
  match sseReconnectTimer (self w) with
  | Some id => filter (fun t => negb (Nat.eqb (t_id t) id)) (timers w)
  | None => timers w
  end.
Proof.
  unfold stopSSE. stop_cases w.
Qed.

(** [startSSE] on a key the table answers to opens one request, after
    tearing the previous one down. *)
Lemma startSSE_found (channelKey : string) (w : World) :
  found (obj_get channels channelKey) = true ->
  exists sseUrl,
    effects (startSSE channelKey w) =
      effects (stopSSE w) ++ [(clock w, EHttpGet (next_handle w) sseUrl)] /\
    sseRequest (self (startSSE channelKey w)) = Some (next_handle w) /\
    sseReconnectAttempts (self (startSSE channelKey w)) = 0 /\
    clock (startSSE channelKey w) = clock w.
Proof.
  intro Hf. unfold startSSE.
  destruct (obj_get channels channelKey) as [c|m|]; [| |discriminate].
  - exists (sse_url (shortcode c)). unfold connectSSE, emit.
    cbn [effects self clock next_handle timers].
    rewrite stopSSE_clock, stopSSE_next_handle, stopSSE_self. auto.
  - exists (sse_url "undefined"). unfold connectSSE, emit.
    cbn [effects self clock next_handle timers].
    rewrite stopSSE_clock, stopSSE_next_handle, stopSSE_self. auto.
Qed.


Lemma getStreamUrl_found (K Q : string) (v : value) :
  getStreamUrl K Q = Return v -> truthy v = true ->
  found (obj_get channels K) = true.
Proof.
  unfold getStreamUrl. destruct (obj_get channels K); simpl; try discriminate; auto.
  intro H. injection H as <-. discriminate.
Qed.

(** The whole of [clearAddPlayTrack] once the stream URL is resolved:
    the SSE request is opened first, the transport commands follow until
    one is rejected, and the provisional state is published only when
    none is. *)
Lemma clearAddPlayTrack_resolved (rev : revision) (mpd : transport)
    (uri : option string) (w : World) (u : string) :
  getStreamUrl (getChannelFromUri uri) (getQualityFromUri uri) = Return (VStr u) ->
  exists sseUrl p,
    effects (snd (clearAddPlayTrack rev mpd uri w)) =
      effects w ++ destroyed w
      ++ [(clock w, EHttpGet (next_handle w) sseUrl)]
      ++ map (fun c => (clock w, EMpd c)) (sent_until mpd (mpd_commands u))
      ++ match first_failure mpd (mpd_commands u) with
         | None => [(clock w, EPushState (StPlay (connecting_state rev p uri)))]
         | Some _ => []
         end /\
    fst (clearAddPlayTrack rev mpd uri w) =
      match first_failure mpd (mpd_commands u) with
      | None => Resolved
      | Some err => Rejected err
      end /\
    sseRequest (self (snd (clearAddPlayTrack rev mpd uri w))) = Some (next_handle w).
Proof.
  intro H.
  destruct (getStreamUrl_of_uri _ _ H) as [u' [Hu Hne]]. injection Hu as <-.
  assert (Ht : truthy (VStr u) = true).
  { simpl. apply String.eqb_neq in Hne. now rewrite Hne. }
  pose proof (getStreamUrl_found _ _ _ H Ht) as Hf.
  unfold clearAddPlayTrack. rewrite H, Ht. cbn [negb to_string].
  set (w0 := match rev with RevA => stopSSE w | RevB => w end).
  set (w1 := with_self _ w0).
  destruct (startSSE_found _ w1 Hf) as [sseUrl [He [Hr [_ Hc]]]].
  assert (Hw1 : effects (stopSSE w1) = effects w ++ destroyed w
                /\ clock w1 = clock w /\ next_handle w1 = next_handle w).
  { subst w1 w0. unfold destroyed. destruct rev.
    - rewrite stopSSE_effects. unfold with_self. cbn [effects self clock next_handle].
      rewrite stopSSE_self, stopSSE_effects, stopSSE_clock, stopSSE_next_handle.
      cbn. rewrite app_nil_r. auto.
    - rewrite stopSSE_effects. unfold with_self. cbn. auto. }
  destruct Hw1 as [Hs [Hc1 Hn1]].
  rewrite Hs, Hc1, Hn1 in He. rewrite Hn1 in Hr. rewrite Hc1 in Hc.
  rewrite send_all_spec. rewrite He, Hc.
  exists sseUrl.
  exists (self (startSSE (getChannelFromUri uri) w1)).
  destruct (first_failure mpd (mpd_commands u)) as [err|];
    cbn [fst snd effects self emit with_self]; unfold emit, with_self;
    cbn [fst snd effects self clock sseRequest set_state];
    rewrite ?Hr; repeat rewrite <- app_assoc; rewrite ?app_nil_r; auto.
Qed.

Lemma split_nonempty (sep : ascii) (s : string) : split sep s <> [].
Proof.
  destruct s as [|c s]; simpl; [discriminate|].
  destruct (Ascii.eqb c sep); [discriminate|].
  destruct (split sep s); discriminate.
Qed.

(** Splitting [a ++ sep ++ b] when [a] holds no separator. *)
Lemma split_app (sep : ascii) (a b : string) :
  split sep a = [a] ->
  split sep (a ++ String sep b)%string = a :: split sep b.
Proof.
  induction a as [|c a IH]; simpl.
  - intros _. now rewrite Ascii.eqb_refl.
  - destruct (Ascii.eqb c sep).
    + intro H. injection H as H _. discriminate.
    + destruct (split sep a) as [|hd tl] eqn:E.
      * now apply split_nonempty in E.
      * intro H. injection H as -> ->. now rewrite IH.
Qed.

(** A [motherearthradio/K/Q] URI whose [K] the table does not answer to
    falls back to the first channel whose shortcode occurs in the URI,
    and [motherearth] occurs in the service prefix itself. *)
Lemma getChannelFromUri_unknown_key (K Q : string) :
  obj_get channels K = Missing -> split slash K = [K] ->
  getChannelFromUri (Some ("motherearthradio/" ++ K ++ "/" ++ Q)%string) = "radio".
Proof.
  intros HK Hs. unfold getChannelFromUri.
  change ("motherearthradio/" ++ K ++ "/" ++ Q)%string
    with ("motherearthradio" ++ String slash (K ++ String slash Q))%string.
  rewrite split_app by reflexivity.
  rewrite split_app by assumption.
  rewrite HK. reflexivity.
Qed.

(** C10 (code defect): the URI [motherearthradio/constructor/flac192]
    names no channel of the table, yet [getChannelFromUri] returns its
    second segment, [constructor], because [this.channels[channelKey]] is
    truthy for the members inherited from [Object.prototype];
    [getStreamUrl] then reads a property of [undefined] and throws, and
    [clearAddPlayTrack] with it. *)
Theorem C10_inherited_member_taken_for_channel :
  let uri := Some "motherearthradio/constructor/flac192" in
  getChannelFromUri uri = "constructor" /\
  ~ In (getChannelFromUri uri) (map fst channels) /\
  getQualityFromUri uri = "flac192" /\
  getStreamUrl (getChannelFromUri uri) (getQualityFromUri uri) = Throw /\
  forall rev mpd w, fst (clearAddPlayTrack rev mpd uri w) = Threw.
Proof.
  cbv zeta.
  assert (H : getStreamUrl
                (getChannelFromUri (Some "motherearthradio/constructor/flac192"))
                (getQualityFromUri (Some "motherearthradio/constructor/flac192"))
              = Throw) by reflexivity.
  split; [reflexivity|]. split; [|split; [reflexivity|split; [exact H|]]].
  - change (getChannelFromUri (Some "motherearthradio/constructor/flac192"))
      with "constructor".
    simpl. intros [E|[E|[E|[E|[]]]]]; discriminate.
  - intros rev mpd w. unfold clearAddPlayTrack. rewrite H. reflexivity.
Qed.

(** C9, as stated, fails: [rock] is not a channel and [getStreamUrl]
    answers [null] for it, yet playing [motherearthradio/rock/flac192]
    is not rejected: the transport is told to play the [radio] stream. *)
Lemma C9_unknown_channel_is_played :
  let uri := Some "motherearthradio/rock/flac192" in
  let w := started 0 false in
  assoc "rock" channels = None /\
  getStreamUrl "rock" "flac192" = Return VNull /\
  fst (clearAddPlayTrack RevA (fun _ => None) uri w) = Resolved /\
  mpd_sent (snd (clearAddPlayTrack RevA (fun _ => None) uri w)) =
    mpd_commands "https://motherearth.streamserver24.com/listen/motherearth/motherearth".
Proof. vm_compute. repeat split; reflexivity. Qed.

Lemma mpd_sent_app (w : World) (d : list (Z * Effect)) (w' : World) :
  effects w' = effects w ++ d ->
  mpd_sent w' =
  mpd_sent w ++ flat_map (fun e => match snd e with EMpd c => [c] | _ => [] end) d.
Proof. intro H. unfold mpd_sent. now rewrite H, flat_map_app. Qed.

Lemma mpd_of_commands (t : Z) (cmds : list string) :
  flat_map (fun e : Z * Effect => match snd e with EMpd c => [c] | _ => [] end)
           (map (fun c => (t, EMpd c)) cmds) = cmds.
Proof. induction cmds as [|c tl IH]; simpl; [reflexivity | now rewrite IH]. Qed.

(** The transport commands [clearAddPlayTrack] sends. *)
Lemma clearAddPlayTrack_mpd_sent (rev : revision) (mpd : transport)
    (uri : option string) (w : World) (u : string) :
  getStreamUrl (getChannelFromUri uri) (getQualityFromUri uri) = Return (VStr u) ->
  mpd_sent (snd (clearAddPlayTrack rev mpd uri w)) =
  mpd_sent w ++ sent_until mpd (mpd_commands u).
Proof.
  intro H.
  destruct (clearAddPlayTrack_resolved rev mpd uri w u H) as [sseUrl [st [He _]]].
  rewrite (mpd_sent_app _ _ _ He). f_equal.
  unfold destroyed. rewrite !flat_map_app, mpd_of_commands.
  destruct (sseRequest (self w));
    destruct (first_failure mpd (mpd_commands u)); simpl;
    now rewrite app_nil_r.
Qed.

(** C9 (amended): for a channel key of the registry [getStreamUrl]
    returns a non-empty URL, that of the tier asked for or of [flac192]
    when the tier has no entry; for a key the registry does not know it
    returns [null].  Playing a URI that names such a key is not
    rejected, though: [getChannelFromUri] falls back to [radio] and the
    transport sequence for the [radio] stream is started. *)
Theorem C9_stream_url_resolution (K Q : string) :
  is_inherited K = false -> is_inherited Q = false -> split slash K = [K] ->
  (forall c, assoc K channels = Some c ->
     exists u, getStreamUrl K Q = Return (VStr u) /\ u <> "" /\
       (assoc Q (streams c) = Some u \/
        assoc Q (streams c) = None /\ assoc "flac192" (streams c) = Some u)) /\
  (assoc K channels = None ->
     getStreamUrl K Q = Return VNull /\
     let uri := Some ("motherearthradio/" ++ K ++ "/" ++ Q)%string in
     getChannelFromUri uri = "radio" /\
     exists u, getStreamUrl "radio" (getQualityFromUri uri) = Return (VStr u) /\
       u <> "" /\
       forall rev mpd w,
         fst (clearAddPlayTrack rev mpd uri w) =
           match first_failure mpd (mpd_commands u) with
           | None => Resolved
           | Some err => Rejected err
           end /\
         exists sent, mpd_sent (snd (clearAddPlayTrack rev mpd uri w)) =
                      mpd_sent w ++ "stop" :: sent).
Proof.
  intros HK HQ Hs. split.
  - intros c Hc. now apply getStreamUrl_own.
  - intro Hc.
    assert (Hm : obj_get channels K = Missing).
    { unfold obj_get. now rewrite Hc, HK. }
    split; [unfold getStreamUrl; now rewrite Hm|].
    cbv zeta.
    pose proof (getChannelFromUri_unknown_key K Q Hm Hs) as Hch.
    split; [exact Hch|].
    set (uri := Some ("motherearthradio/" ++ K ++ "/" ++ Q)%string) in *.
    destruct (getStreamUrl_own "radio" (getQualityFromUri uri)
                (mkChannel "Radio" "motherearth"
                   [ ("flac192", (listen ++ "motherearth/motherearth")%string);
                     ("flac96", (listen ++ "motherearth/motherearth.flac-lo")%string);
                     ("aac", (listen ++ "motherearth/motherearth.aac")%string) ])
                eq_refl (tier_not_inherited _ (getQualityFromUri_tier uri)))
      as [u [Hu [Hne _]]].
    exists u. repeat split; auto.
    + rewrite <- Hch in Hu.
      destruct (clearAddPlayTrack_resolved rev mpd uri w u Hu) as [? [? [_ [Ho _]]]].
      exact Ho.
    + rewrite <- Hch in Hu.
      rewrite (clearAddPlayTrack_mpd_sent rev mpd uri w u Hu).
      simpl. eexists. reflexivity.
Qed.

Lemma C9_stream_url_resolution_witness :
  (exists u, getStreamUrl "jazz" "opus" = Return (VStr u) /\ u <> "") /\
  getChannelFromUri (Some "motherearthradio/rock/flac96") = "radio".
Proof.
  pose proof (C9_stream_url_resolution "jazz" "opus" eq_refl eq_refl eq_refl)
    as [Hown _].
  pose proof (C9_stream_url_resolution "rock" "flac96" eq_refl eq_refl eq_refl)
    as [_ Hmiss].
  split.
  - destruct (Hown _ eq_refl) as [u [Hu [Hne _]]]. now exists u.
  - destruct (Hmiss eq_refl) as [_ [Hch _]]. exact Hch.
Defined.

Lemma pushed_app (w : World) (d : list (Z * Effect)) (w' : World) :
  effects w' = effects w ++ d ->
  pushed w' =
  pushed w ++ flat_map (fun e => match snd e with EPushState s => [s] | _ => [] end) d.
Proof. intro H. unfold pushed. now rewrite H, flat_map_app. Qed.

Lemma pushed_of_commands (t : Z) (cmds : list string) :
  flat_map (fun e : Z * Effect => match snd e with EPushState s => [s] | _ => [] end)
           (map (fun c => (t, EMpd c)) cmds) = [].
Proof. induction cmds as [|c tl IH]; simpl; [reflexivity | exact IH]. Qed.

(** C4, as stated, fails: the transport rejects the very first command,
    the play is rejected, and the SSE request has been opened all the
    same and stays open. *)
Lemma C4_sse_started_despite_transport_failure :
  let mpd : transport :=
    fun cmd => if (cmd =? "stop")%string then Some "MPD error" else None in
  let r := clearAddPlayTrack RevA mpd (Some "motherearthradio/radio/flac192")
             (started 0 false) in
  fst r = Rejected "MPD error" /\
  sseRequest (self (snd r)) = Some 0%nat /\
  map snd (effects (snd r)) = [EHttpGet 0 (sse_url "motherearth"); EMpd "stop"].
Proof. vm_compute. repeat split; reflexivity. Qed.

(** C4 (amended): on play the connection manager is started before the
    transport is addressed and whatever the transport answers; the
    transport commands are then sent in the order stop, clear, add, play,
    each only after the previous one succeeded; a rejected command
    rejects the play with its error and nothing is published, and the
    provisional state is published only when all four succeeded.  The
    SSE request is not torn down when the play is rejected. *)
Theorem C4_transport_sequence (rev : revision) (mpd : transport)
    (uri : option string) (w : World) (u : string) :
  getStreamUrl (getChannelFromUri uri) (getQualityFromUri uri) = Return (VStr u) ->
  let r := clearAddPlayTrack rev mpd uri w in
  let cmds := mpd_commands u in
  (exists sseUrl published,
     map snd (since w (snd r)) =
       map snd (destroyed w) ++ EHttpGet (next_handle w) sseUrl
       :: map EMpd (sent_until mpd cmds) ++ map EPushState published) /\
  sseRequest (self (snd r)) = Some (next_handle w) /\
  (exists rest, cmds = sent_until mpd cmds ++ rest) /\
  ((forall cmd, In cmd cmds -> mpd cmd = None) ->
     fst r = Resolved /\ sent_until mpd cmds = cmds /\
     exists st, pushed (snd r) = pushed w ++ [StPlay st] /\
                st_artist st = VStr "Connecting...") /\
  (forall err, first_failure mpd cmds = Some err ->
     fst r = Rejected err /\ pushed (snd r) = pushed w /\
     exists cmd, In cmd (sent_until mpd cmds) /\ mpd cmd = Some err).
Proof.
  intros H r cmds.
  destruct (clearAddPlayTrack_resolved rev mpd uri w u H) as [sseUrl [p [He [Ho Hr]]]].
  fold r in He, Ho, Hr. fold cmds in He, Ho.
  pose proof (pushed_app _ _ _ He) as Hp.
  rewrite !flat_map_app, pushed_of_commands in Hp.
  assert (Hd : flat_map (fun e : Z * Effect =>
                 match snd e with EPushState s => [s] | _ => [] end)
                 (destroyed w) = []).
  { unfold destroyed. now destruct (sseRequest (self w)). }
  rewrite Hd in Hp. cbn [flat_map snd app] in Hp.
  split; [|split; [exact Hr|split; [apply sent_until_prefix|split]]].
  - exists sseUrl.
    exists (match first_failure mpd cmds with
            | None => [StPlay (connecting_state rev p uri)]
            | Some _ => []
            end).
    rewrite (since_app _ _ _ He), !map_app, map_map. cbn [map snd app].
    destruct (first_failure mpd cmds); reflexivity.
  - intro Hall. apply first_failure_None in Hall.
    rewrite Hall in Ho, Hp. cbn [flat_map snd app] in Hp. split; [exact Ho|].
    split; [now apply first_failure_None_sent|].
    exists (connecting_state rev p uri). split; [exact Hp|].
    now destruct rev.
  - intros err Herr. rewrite Herr in Ho, Hp. cbn [flat_map] in Hp.
    split; [exact Ho|].
    split; [now rewrite Hp, app_nil_r | now apply first_failure_Some].
Qed.

Lemma C4_transport_sequence_witness :
  fst (clearAddPlayTrack RevB (fun _ => None) (Some "motherearthradio/jazz/aac")
         (started 0 false)) = Resolved.
Proof.
  destruct (C4_transport_sequence RevB (fun _ => None)
              (Some "motherearthradio/jazz/aac") (started 0 false)
              "https://motherearth.streamserver24.com/listen/motherearth_jazz/motherearth.jazz.aac"
              eq_refl) as [_ [_ [_ [Hok _]]]].
  destruct (Hok (fun _ _ => eq_refl)) as [Hr _]. exact Hr.
Defined.

(** ** Connection manager *)

Lemma scheduleSSEReconnect_retry (sseUrl channelKey : string) (w : World) :
  sseReconnectAttempts (self w) < SSE_MAX_RECONNECT_ATTEMPTS ->
  scheduleSSEReconnect sseUrl channelKey w =
  mkWorld
    (set_sseReconnectTimer (Some (next_handle w))
       (set_sseReconnectAttempts (sseReconnectAttempts (self w) + 1) (self w)))
    (clock w)
    (timers w ++ [mkTimer (next_handle w)
                    (clock w + SSE_RECONNECT_DELAY_MS
                               * (sseReconnectAttempts (self w) + 1))
                    (CbConnectSSE sseUrl channelKey)])
    (S (next_handle w)) (effects w).
Proof.
  intro H. unfold scheduleSSEReconnect.
  destruct (Z.leb_spec SSE_MAX_RECONNECT_ATTEMPTS (sseReconnectAttempts (self w)));
    [lia|]. reflexivity.
Qed.

Lemma scheduleSSEReconnect_give_up (sseUrl channelKey : string) (w : World) :
  SSE_MAX_RECONNECT_ATTEMPTS <= sseReconnectAttempts (self w) ->
  scheduleSSEReconnect sseUrl channelKey w = emit toast_exhausted w.
Proof.
  intro H. unfold scheduleSSEReconnect.
  destruct (Z.leb_spec SSE_MAX_RECONNECT_ATTEMPTS (sseReconnectAttempts (self w)));
    [reflexivity|lia].
Qed.

(** A failure callback is a call of [scheduleSSEReconnect]. *)
Lemma failure_schedules (rev : revision) (sseUrl channelKey : string)
    (ev : SseEvent) (w : World) :
  is_failure ev = true ->
  sse_callback rev sseUrl channelKey ev w = scheduleSSEReconnect sseUrl channelKey w.
Proof.
  destruct ev; simpl; try reflexivity; try discriminate.
  intros ->. reflexivity.
Qed.

Lemma toasts_emit (e : Effect) (w : World) :
  toasts (emit e w) =
  toasts w ++ match e with EToast _ _ _ => [(clock w, e)] | _ => [] end.
Proof.
  unfold toasts, emit. cbn [effects]. rewrite filter_app. cbn [filter snd].
  destruct e; reflexivity.
Qed.

(** C3: a failure callback (stream end, response or request error,
    status other than 200) arms one reconnect timer, due the base delay
    of 3000 ms times the attempt number from now, the attempt number
    being the counter it has just incremented; once the counter has
    reached 10 it arms nothing and gives up.  The counter never leaves
    0..10, so a streak makes at most 10 reconnects. *)
Theorem C3_linear_backoff (rev : revision) (sseUrl channelKey : string)
    (ev : SseEvent) (w : World) :
  is_failure ev = true ->
  let n := sseReconnectAttempts (self w) in
  let w' := sse_callback rev sseUrl channelKey ev w in
  SSE_RECONNECT_DELAY_MS = 3000 /\ SSE_MAX_RECONNECT_ATTEMPTS = 10 /\
  (n < SSE_MAX_RECONNECT_ATTEMPTS ->
     sseReconnectAttempts (self w') = n + 1 /\
     timers w' = timers w ++ [mkTimer (next_handle w)
                                (clock w + SSE_RECONNECT_DELAY_MS * (n + 1))
                                (CbConnectSSE sseUrl channelKey)] /\
     sseReconnectTimer (self w') = Some (next_handle w) /\
     effects w' = effects w) /\
  (SSE_MAX_RECONNECT_ATTEMPTS <= n ->
     sseReconnectAttempts (self w') = n /\
     timers w' = timers w /\
     effects w' = effects w ++ [(clock w, toast_exhausted)]) /\
  (0 <= n <= SSE_MAX_RECONNECT_ATTEMPTS ->
     0 <= sseReconnectAttempts (self w') <= SSE_MAX_RECONNECT_ATTEMPTS).
Proof.
  intros Hf n w'. subst w'. rewrite (failure_schedules _ _ _ _ _ Hf).
  split; [reflexivity|]. split; [reflexivity|]. split; [|split].
  - intro Hlt. rewrite scheduleSSEReconnect_retry by exact Hlt. cbn. auto.
  - intro Hge. rewrite scheduleSSEReconnect_give_up by exact Hge. cbn. auto.
  - intros [Hlo Hhi].
    destruct (Z.lt_ge_cases n SSE_MAX_RECONNECT_ATTEMPTS) as [Hlt|Hge].
    + rewrite scheduleSSEReconnect_retry by exact Hlt. cbn. fold n. lia.
    + rewrite scheduleSSEReconnect_give_up by exact Hge. cbn. fold n. lia.
Qed.

Lemma C3_linear_backoff_witness :
  timers (sse_callback RevA "u" "radio" End
            (mkWorld (mkPlugin StInit None None None (Some 0%nat) 2 None 0 false)
                     500 [] 1 [])) =
  [mkTimer 1 9500 (CbConnectSSE "u" "radio")].
Proof.
  destruct (C3_linear_backoff RevA "u" "radio" End
              (mkWorld (mkPlugin StInit None None None (Some 0%nat) 2 None 0 false)
                       500 [] 1 []) eq_refl) as [_ [_ [Hretry _]]].
  destruct (Hretry ltac:(reflexivity)) as [_ [Ht _]]. exact Ht.
Defined.

(** *** Failure streaks *)

(** Handles below [bound] are not the handle [id >= bound]. *)
Lemma find_fresh_none (l : list Timer) (bound id : nat) :
  Forall (fun t => (t_id t < bound)%nat) l -> (bound <= id)%nat ->
  find (fun t => Nat.eqb (t_id t) id) l = None.
Proof.
  intros Hfresh Hid. induction l as [|t tl IH]; simpl; [reflexivity|].
  inversion Hfresh as [|? ? Ht Htl]; subst.
  destruct (Nat.eqb_spec (t_id t) id); [lia | now apply IH].
Qed.

Lemma find_fresh_last (l : list Timer) (bound id : nat) (t : Timer) :
  Forall (fun t => (t_id t < bound)%nat) l -> (bound <= id)%nat ->
  t_id t = id -> find (fun t => Nat.eqb (t_id t) id) (l ++ [t]) = Some t.
Proof.
  intros Hfresh Hid E. induction l as [|t' tl IH]; simpl.
  - now rewrite E, Nat.eqb_refl.
  - inversion Hfresh as [|? ? Ht Htl]; subst.
    destruct (Nat.eqb_spec (t_id t') (t_id t)); [lia | now apply IH].
Qed.

Lemma filter_fresh_all (l : list Timer) (bound id : nat) :
  Forall (fun t => (t_id t < bound)%nat) l -> (bound <= id)%nat ->
  filter (fun t => negb (Nat.eqb (t_id t) id)) l = l.
Proof.
  intros Hfresh Hid. induction l as [|t' tl IH]; simpl; [reflexivity|].
  inversion Hfresh as [|? ? Ht Htl]; subst.
  destruct (Nat.eqb_spec (t_id t') id); [lia|]. simpl. now rewrite IH.
Qed.

Lemma filter_fresh_last (l : list Timer) (bound id : nat) (t : Timer) :
  Forall (fun t => (t_id t < bound)%nat) l -> (bound <= id)%nat ->
  t_id t = id -> filter (fun t => negb (Nat.eqb (t_id t) id)) (l ++ [t]) = l.
Proof.
  intros Hfresh Hid E.
  rewrite filter_app, (filter_fresh_all l bound id Hfresh Hid). simpl.
  rewrite E, Nat.eqb_refl. simpl. apply app_nil_r.
Qed.

Lemma armed_start (sseUrl channelKey : string) (w : World) :
  sseReconnectAttempts (self w) = 0 -> pending_reconnect w = None ->
  Forall (fun t => (t_id t < next_handle w)%nat) (timers w) ->
  armed sseUrl channelKey 0 w w.
Proof. intros Ha Hp Hf. unfold armed. simpl. repeat split; auto. Qed.

(** One more failure of a streak that has not used up its attempts. *)
Lemma armed_step (rev : revision) (sseUrl channelKey : string) (k : Z)
    (ev : SseEvent) (w0 w : World) :
  armed sseUrl channelKey k w0 w -> 0 <= k < SSE_MAX_RECONNECT_ATTEMPTS ->
  is_failure ev = true ->
  armed sseUrl channelKey (k + 1) w0
        (sse_callback rev sseUrl channelKey ev (retry_fires rev w)).
Proof.
  intros [Ha [Ht [Hf [Hn Hk]]]] Hrange Hev.
  rewrite (failure_schedules _ _ _ _ _ Hev).
  destruct (Z.eqb_spec k 0) as [->|Hk0].
  - destruct Hk as [Htm [Hp Hr]].
    unfold retry_fires. rewrite Hp.
    rewrite scheduleSSEReconnect_retry by (rewrite Ha; reflexivity).
    unfold armed. cbn [self clock timers next_handle effects sseReconnectAttempts
                         sseReconnectTimer set_sseReconnectTimer
                         set_sseReconnectAttempts].
    rewrite Ha. cbn [Z.add Z.eqb].
    split; [reflexivity|]. split; [exact Ht|]. split; [exact Hf|].
    split; [lia|].
    exists (next_handle w). rewrite Htm.
    split; [lia|]. split; [reflexivity|]. split; [reflexivity|].
    unfold requests in *. cbn [effects]. rewrite Hr. lia.
  - destruct Hk as [id [Hid [Hs [Htm Hr]]]].
    set (t := mkTimer id (clock w + SSE_RECONNECT_DELAY_MS * k)
                (CbConnectSSE sseUrl channelKey)) in *.
    assert (Hp : pending_reconnect w = Some t).
    { unfold pending_reconnect. rewrite Hs, Htm.
      apply (find_fresh_last _ (next_handle w0)); auto; lia. }
    unfold retry_fires. rewrite Hp. unfold fire. cbn [t_cb t run_callback t_id t_due].
    rewrite Htm.
    rewrite (filter_fresh_last _ (next_handle w0) id _ Hf) by (auto; lia).
    unfold connectSSE, emit. cbn [self clock timers next_handle effects].
    rewrite scheduleSSEReconnect_retry by (cbn; rewrite Ha; lia).
    unfold armed. cbn. rewrite Ha.
    destruct (Z.eqb_spec (k + 1) 0); [lia|].
    split; [reflexivity|]. split.
    { unfold toasts in *. cbn [effects]. rewrite filter_app. cbn. rewrite Ht.
      apply app_nil_r. }
    split; [exact Hf|]. split; [lia|].
    exists (S (next_handle w)). repeat split; try lia.
    unfold requests in *. cbn [effects]. rewrite flat_map_app, length_app. cbn.
    lia.
Qed.

Lemma streak_app (rev : revision) (sseUrl channelKey : string)
    (evs : list SseEvent) (ev : SseEvent) (w : World) :
  streak rev sseUrl channelKey (evs ++ [ev]) w =
  sse_callback rev sseUrl channelKey ev
    (retry_fires rev (streak rev sseUrl channelKey evs w)).
Proof. unfold streak. now rewrite fold_left_app. Qed.

(** After [k] consecutive failures, for [k] up to the maximum, the
    counter is [k] and the [k]-th reconnect is armed. *)
Lemma streak_armed (rev : revision) (sseUrl channelKey : string)
    (evs : list SseEvent) (w0 : World) :
  armed sseUrl channelKey 0 w0 w0 ->
  Forall (fun ev => is_failure ev = true) evs ->
  Z.of_nat (List.length evs) <= SSE_MAX_RECONNECT_ATTEMPTS ->
  armed sseUrl channelKey (Z.of_nat (List.length evs)) w0
        (streak rev sseUrl channelKey evs w0).
Proof.
  intro H0. induction evs as [|ev evs IH] using rev_ind; intros Hall Hlen.
  - exact H0.
  - apply Forall_app in Hall as [Hall Hev]. inversion Hev as [|? ? Hev' _]; subst.
    rewrite length_app in *. cbn [List.length] in *.
    rewrite streak_app.
    replace (Z.of_nat (List.length evs + 1)) with (Z.of_nat (List.length evs) + 1)
      by lia.
    apply armed_step; auto; [apply IH; auto; lia | lia].
Qed.

(** The failure after the last attempt: the plugin gives up. *)
Lemma armed_exhausted (rev : revision) (sseUrl channelKey : string)
    (ev : SseEvent) (w0 w : World) :
  armed sseUrl channelKey SSE_MAX_RECONNECT_ATTEMPTS w0 w ->
  is_failure ev = true ->
  let w' := sse_callback rev sseUrl channelKey ev (retry_fires rev w) in
  toasts w' = toasts w0 ++ [(clock w', toast_exhausted)] /\
  timers w' = timers w0 /\
  pending_reconnect w' = None /\
  sseReconnectAttempts (self w') = SSE_MAX_RECONNECT_ATTEMPTS /\
  Z.of_nat (List.length (requests w')) =
    Z.of_nat (List.length (requests w0)) + SSE_MAX_RECONNECT_ATTEMPTS.
Proof.
  intros [Ha [Ht [Hf [Hn Hk]]]] Hev w'. subst w'.
  rewrite (failure_schedules _ _ _ _ _ Hev).
  cbn [Z.eqb SSE_MAX_RECONNECT_ATTEMPTS] in Hk.
  destruct Hk as [id [Hid [Hs [Htm Hr]]]].
  set (t := mkTimer id (clock w + SSE_RECONNECT_DELAY_MS * SSE_MAX_RECONNECT_ATTEMPTS)
              (CbConnectSSE sseUrl channelKey)) in *.
  assert (Hp : pending_reconnect w = Some t).
  { unfold pending_reconnect. rewrite Hs, Htm.
    apply (find_fresh_last _ (next_handle w0)); auto. lia. }
  unfold retry_fires. rewrite Hp. unfold fire. cbn [t_cb t run_callback t_id t_due].
  rewrite Htm.
  rewrite (filter_fresh_last _ (next_handle w0) id _ Hf) by (auto; lia).
  unfold connectSSE, emit. cbn [self clock timers next_handle effects].
  rewrite scheduleSSEReconnect_give_up by (cbn; rewrite Ha; lia).
  unfold emit. cbn [self clock timers next_handle effects].
  split.
  { unfold toasts in *. cbn [effects]. rewrite !filter_app. cbn. rewrite Ht.
    now rewrite app_nil_r. }
  split; [reflexivity|]. split.
  { unfold pending_reconnect. cbn. rewrite Hs.
    apply (find_fresh_none _ (next_handle w0)); auto; lia. }
  split; [cbn; exact Ha|].
  unfold requests in *. cbn [effects]. rewrite !flat_map_app, !length_app. cbn.
  unfold SSE_MAX_RECONNECT_ATTEMPTS in *. lia.
Qed.

Lemma updateMetadata_attempts (rev : revision) (song duration elapsed np : value)
    (w : World) :
  sseReconnectAttempts (self (updateMetadata rev song duration elapsed np w)) =
  sseReconnectAttempts (self w).
Proof.
  unfold updateMetadata.
  destruct (found (obj_get channels (key_of (currentChannel (self w)))));
    reflexivity.
Qed.

Lemma schedule_attempts (rev : revision) (ev : value * value * value * value)
    (w : World) :
  sseReconnectAttempts (self (schedule rev ev w)) = sseReconnectAttempts (self w).
Proof.
  destruct ev as [[[song duration] elapsed] np]. unfold schedule.
  destruct (0 <? getEffectiveDelay (self w)); [reflexivity|].
  apply updateMetadata_attempts.
Qed.

Lemma processNowPlayingData_attempts (rev : revision) (data : value)
    (channelKey : string) (w : World) :
  sseReconnectAttempts (self (processNowPlayingData rev data channelKey w)) =
  sseReconnectAttempts (self w).
Proof.
  unfold processNowPlayingData. destruct (decode data); [|reflexivity].
  apply schedule_attempts.
Qed.

Lemma handleSSEData_attempts (rev : revision) (data : value)
    (channelKey : string) (w : World) :
  sseReconnectAttempts (self (handleSSEData rev data channelKey w)) =
  sseReconnectAttempts (self w).
Proof.
  unfold handleSSEData.
  destruct (negb (truthy data)); [reflexivity|].
  destruct (truthy (get data "connect")).
  - destruct (truthy (get (get data "connect") "data")
              && isArray (get (get data "connect") "data")); [|reflexivity].
    generalize (array_items (get (get data "connect") "data")). intro items.
    revert w. induction items as [|item items IH]; intro w; simpl; [reflexivity|].
    rewrite IH. apply processNowPlayingData_attempts.
  - apply processNowPlayingData_attempts.
Qed.

Lemma fire_attempts (rev : revision) (t : Timer) (w : World) :
  sseReconnectAttempts (self (fire rev t w)) = sseReconnectAttempts (self w).
Proof.
  unfold fire. destruct (t_cb t); simpl.
  - now rewrite updateMetadata_attempts.
  - reflexivity.
Qed.

Lemma callback_monotone (rev : revision) (sseUrl channelKey : string)
    (ev : SseEvent) (w : World) :
  ev <> Response 200 ->
  sseReconnectAttempts (self w) <=
  sseReconnectAttempts (self (sse_callback rev sseUrl channelKey ev w)).
Proof.
  intro Hne.
  assert (Hs : sseReconnectAttempts (self w) <=
               sseReconnectAttempts (self (scheduleSSEReconnect sseUrl channelKey w))).
  { destruct (Z.lt_ge_cases (sseReconnectAttempts (self w))
                SSE_MAX_RECONNECT_ATTEMPTS) as [Hlt|Hge].
    - rewrite scheduleSSEReconnect_retry by exact Hlt. cbn. lia.
    - rewrite scheduleSSEReconnect_give_up by exact Hge. cbn. lia. }
  destruct ev as [statusCode|data| | |]; cbn [sse_callback]; try exact Hs.
  - destruct (Z.eqb_spec statusCode 200) as [->|_]; [congruence | exact Hs].
  - rewrite handleSSEData_attempts. lia.
Qed.

(** C7: within a failure streak the attempt counter never decreases:
    every callback other than a response with status 200 keeps or raises
    it, and the retry itself (the reconnect timer firing, like any other
    timer) leaves it as it is; the only callback that lowers it is the
    successful connect, which sets it to 0.  After [N < 10] consecutive
    failures the counter is [N], and 0 right after the connect that
    follows. *)
Theorem C7_attempt_counter (rev : revision) (sseUrl channelKey : string)
    (w : World) :
  (forall ev, ev <> Response 200 ->
     sseReconnectAttempts (self w) <=
     sseReconnectAttempts (self (sse_callback rev sseUrl channelKey ev w))) /\
  (forall t, sseReconnectAttempts (self (fire rev t w)) =
             sseReconnectAttempts (self w)) /\
  (forall ev,
     sseReconnectAttempts (self (sse_callback rev sseUrl channelKey ev w)) <
     sseReconnectAttempts (self w) -> ev = Response 200) /\
  sseReconnectAttempts
    (self (sse_callback rev sseUrl channelKey (Response 200) w)) = 0 /\
  (forall evs,
     sseReconnectAttempts (self w) = 0 -> pending_reconnect w = None ->
     Forall (fun t => (t_id t < next_handle w)%nat) (timers w) ->
     Forall (fun ev => is_failure ev = true) evs ->
     Z.of_nat (List.length evs) < SSE_MAX_RECONNECT_ATTEMPTS ->
     let failed := streak rev sseUrl channelKey evs w in
     sseReconnectAttempts (self failed) = Z.of_nat (List.length evs) /\
     sseReconnectAttempts
       (self (sse_callback rev sseUrl channelKey (Response 200)
                (retry_fires rev failed))) = 0).
Proof.
  split; [intros ev Hne; now apply callback_monotone|].
  split; [intro t; apply fire_attempts|].
  split; [|split; [reflexivity|]].
  - intros ev Hlt.
    assert (Hdec : ev = Response 200 \/ ev <> Response 200).
    { destruct ev as [statusCode|data| | |];
        try (right; discriminate).
      destruct (Z.eq_dec statusCode 200) as [->|Hne]; [now left|].
      right. intro H. injection H as H. contradiction. }
    destruct Hdec as [H|H]; [exact H|].
    pose proof (callback_monotone rev sseUrl channelKey ev w H). lia.
  - intros evs Ha Hp Hf Hall Hlen failed. subst failed.
    pose proof (streak_armed rev sseUrl channelKey evs w
                  (armed_start _ _ _ Ha Hp Hf) Hall ltac:(lia)) as [Hk _].
    split; [exact Hk | reflexivity].
Qed.

Lemma C7_attempt_counter_witness :
  let w := startSSE "radio" (started 0 false) in
  let failed := streak RevA (sse_url "motherearth") "radio"
                  [RequestError; Response 503; RequestError] w in
  sseReconnectAttempts (self failed) = 3 /\
  sseReconnectAttempts
    (self (sse_callback RevA (sse_url "motherearth") "radio" (Response 200)
             (retry_fires RevA failed))) = 0.
Proof.
  destruct (C7_attempt_counter RevA (sse_url "motherearth") "radio"
              (startSSE "radio" (started 0 false))) as [_ [_ [_ [_ H]]]].
  apply (H [RequestError; Response 503; RequestError]).
  - reflexivity.
  - reflexivity.
  - constructor.
  - repeat constructor.
  - reflexivity.
Defined.

(** C8, as stated, fails: after exactly ten consecutive failures the
    tenth reconnect is armed and no error has been shown. *)
Lemma C8_reconnect_armed_after_ten_failures :
  let w := startSSE "radio" (started 0 false) in
  let w10 := streak RevA (sse_url "motherearth") "radio" (repeat RequestError 10) w in
  pending_reconnect w10 =
    Some (mkTimer 19 165000 (CbConnectSSE (sse_url "motherearth") "radio")) /\
  toasts w10 = [] /\
  sseReconnectAttempts (self w10) = 10.
Proof. vm_compute. repeat split; reflexivity. Qed.

(** C8 (amended): the plugin gives up on the failure that follows the
    tenth reconnect, the eleventh consecutive failure of a streak.  After
    ten failures the tenth reconnect is still armed, 30000 ms ahead, and
    nothing has been signalled; the eleventh failure arms no timer and
    shows the error toast, once; ten reconnects were made in all.
    Nothing is pending afterwards, and a new [startSSE] starts over with
    the counter at 0. *)
Theorem C8_retry_exhausted (rev : revision) (sseUrl channelKey : string)
    (evs : list SseEvent) (ev : SseEvent) (w : World) :
  sseReconnectAttempts (self w) = 0 -> pending_reconnect w = None ->
  Forall (fun t => (t_id t < next_handle w)%nat) (timers w) ->
  Forall (fun e => is_failure e = true) (evs ++ [ev]) ->
  Z.of_nat (List.length evs) = SSE_MAX_RECONNECT_ATTEMPTS ->
  let w10 := streak rev sseUrl channelKey evs w in
  let w11 := streak rev sseUrl channelKey (evs ++ [ev]) w in
  (exists t, pending_reconnect w10 = Some t /\
             t_due t = clock w10 + 30000 /\
             t_cb t = CbConnectSSE sseUrl channelKey) /\
  toasts w10 = toasts w /\
  toasts w11 = toasts w ++ [(clock w11, toast_exhausted)] /\
  pending_reconnect w11 = None /\
  timers w11 = timers w /\
  List.length (requests w11) = (List.length (requests w) + 10)%nat /\
  forall key, found (obj_get channels key) = true ->
    sseReconnectAttempts (self (startSSE key w11)) = 0 /\
    sseRequest (self (startSSE key w11)) = Some (next_handle w11).
Proof.
  intros Ha Hp Hf Hall Hlen w10 w11.
  apply Forall_app in Hall as [Hall Hev]. inversion Hev as [|? ? Hev' _]; subst.
  pose proof (streak_armed rev sseUrl channelKey evs w
                (armed_start _ _ _ Ha Hp Hf) Hall ltac:(lia)) as Harmed.
  rewrite Hlen in Harmed.
  pose proof (armed_exhausted rev sseUrl channelKey ev w _ Harmed Hev')
    as [Ht [Htm [Hpend [_ Hreq]]]].
  rewrite <- streak_app in Ht, Htm, Hpend, Hreq.
  fold w10 in Harmed. fold w11 in Ht, Htm, Hpend, Hreq.
  destruct Harmed as [_ [Ht10 [_ [Hn [id [Hid [Hs [Htm10 _]]]]]]]].
  split.
  { eexists. split.
    - unfold pending_reconnect. rewrite Hs, Htm10.
      apply (find_fresh_last _ (next_handle w)); auto; lia.
    - split; reflexivity. }
  split; [exact Ht10|]. split; [exact Ht|]. split; [exact Hpend|].
  split; [exact Htm|]. split.
  { unfold SSE_MAX_RECONNECT_ATTEMPTS in Hreq. lia. }
  intros key Hkey.
  destruct (startSSE_found key w11 Hkey) as [url [_ [Hr [Hz _]]]]. auto.
Qed.

Lemma C8_retry_exhausted_witness :
  let w := startSSE "radio" (started 0 false) in
  let w11 := streak RevB "u" "radio" (repeat RequestError 10 ++ [Response 503]) w in
  List.length (toasts w11) = 1%nat /\ pending_reconnect w11 = None.
Proof.
  destruct (C8_retry_exhausted RevB "u" "radio" (repeat RequestError 10) (Response 503)
              (startSSE "radio" (started 0 false)))
    as [_ [_ [Ht [Hp _]]]].
  - reflexivity.
  - reflexivity.
  - constructor.
  - repeat constructor.
  - reflexivity.
  - split; [|exact Hp]. cbv zeta. rewrite Ht. reflexivity.
Defined.

(** ** Envelope decoder *)

Lemma get_falsy (v : value) (k : string) : truthy v = false -> get v k = VUndef.
Proof. destruct v; simpl; try reflexivity; discriminate. Qed.


(** [decode] yields an event exactly when the payload carries a song. *)
Lemma decode_song (data : value) :
  decode data =
  if truthy (song_of data)
  then Some (song_of data,
             js_or (get (get (np_of data) "now_playing") "duration") (VNum 0),
             js_or (get (get (np_of data) "now_playing") "elapsed") (VNum 0),
             np_of data)
  else None.
Proof.
  unfold decode, song_of. fold (np_of data).
  destruct (truthy (np_of data)) eqn:Enp; cbn [negb orb].
  - destruct (truthy (get (np_of data) "now_playing")) eqn:Enow; cbn [negb].
    + destruct (truthy (get (get (np_of data) "now_playing") "song"));
        reflexivity.
    + now rewrite (get_falsy _ "song" Enow).
  - rewrite (get_falsy _ "now_playing" Enp). reflexivity.
Qed.






Section Frames.

Variable JSON_parse : string -> option value.

(** A frame without a [data: ] line, or whose payloads do not parse, is
    dropped. *)
Lemma frame_without_payload (rev : revision) (message channelKey : string)
    (w : World) :
  Forall (fun line => startsWith "data: " line = true ->
                      JSON_parse (substring_from 6 line) = None)
         (split newline message) ->
  handleSSEMessage JSON_parse rev message channelKey w = w.
Proof.
  intro H. unfold handleSSEMessage.
  assert (Hp : parse_lines JSON_parse (split newline message) = VNull).
  { unfold parse_lines. induction H as [|line lines Hl _ IH]; [reflexivity|].
    cbn [fold_left]. destruct (startsWith "data: " line).
    - now rewrite (Hl eq_refl).
    - exact IH. }
  rewrite Hp. reflexivity.
Qed.

End Frames.

(** ** Field extraction *)

(** The quality label of a tier is a non-empty string. *)
Lemma getQualityLabel_tier (q : string) :
  In q quality_tiers ->
  exists label, getQualityLabel (Some q) = VStr label /\ label <> "".
Proof.
  simpl. intros [<-|[<-|[<-|[]]]]; eexists; (split; [reflexivity|discriminate]).
Qed.

(** C6, as stated, fails in revision A: a song without an album is
    published with the quality label of the stream as its album, not the
    empty string. *)
Lemma C6_album_defaults_to_quality_label :
  let w := snd (clearAddPlayTrack RevA (fun _ => None)
                  (Some "motherearthradio/radio/flac192") (started 0 false)) in
  let song := VObj [("title", VStr "B"); ("artist", VStr "A")] in
  let data := VObj [("np", VObj [("now_playing", VObj [("song", song)])])] in
  get song "album" = VUndef /\
  match state (self (handleSSEData RevA data "radio" w)) with
  | StPlay p => st_title p = VStr "B" /\
                st_album p = VStr "FLAC 192kHz/24bit" /\
                st_album p <> VStr ""
  | _ => False
  end.
Proof. vm_compute. repeat split; discriminate. Qed.

(** C6, as stated, fails on its last clause too: [elapsed * 1000] raises
    a [TypeError] for an elapsed value that is an object with a
    [toString] property of its own, which no method converts to a
    number.  The event is decoded, nothing is published, and the error
    reaches the caller. *)
Lemma C6_elapsed_object_raises :
  let w := snd (clearAddPlayTrack RevA (fun _ => None)
                  (Some "motherearthradio/radio/flac192") (started 0 false)) in
  let song := VObj [("title", VStr "B"); ("artist", VStr "A")] in
  let elapsed := VObj [("toString", VNum 1)] in
  let np := VObj [("now_playing", VObj [("song", song); ("elapsed", elapsed)])] in
  let data := VObj [("np", np)] in
  decode data = Some (song, VNum 0, elapsed, np) /\
  updateMetadata_completion RevA song (VNum 0) elapsed np w = Throw /\
  processNowPlayingData_completion RevA data "radio" w = Throw.
Proof. vm_compute. repeat split. Qed.

(** C6 (amended): for every decoded payload, empty or missing optional
    fields map to fixed defaults: the album to the label of the current
    quality in revision A and to the empty string in revision B, the
    artwork to the revision's logo asset, duration and elapsed to 0,
    and with elapsed so defaulted the product converts.  The extraction
    propagates a failure in one case: with a current channel and an
    elapsed value that does not convert to a number, [updateMetadata]
    raises a [TypeError] and publishes nothing.  In every other case it
    publishes the state so built, or drops the event when no current
    channel is known. *)
Theorem C6_field_defaults (rev : revision) (data song duration elapsed np : value)
    (w : World) :
  decode data = Some (song, duration, elapsed, np) ->
  let channel := obj_get channels (key_of (currentChannel (self w))) in
  let st := metadata_state rev (self w) channel song duration elapsed in
  (truthy (get song "album") = false ->
     st_album st = match rev with
                   | RevA => getQualityLabel (currentQuality (self w))
                   | RevB => VStr ""
                   end) /\
  (truthy (get song "art") = false ->
     st_albumart st = VStr (match rev with RevA => logo_svg | RevB => logo_png end)) /\
  (truthy (get (get np "now_playing") "duration") = false ->
     duration = VNum 0 /\ st_duration st = VNum 0) /\
  (truthy (get (get np "now_playing") "elapsed") = false ->
     elapsed = VNum 0 /\ st_seek st = Some (JNum 0) /\
     times1000 elapsed = Return (JNum 0)) /\
  (found channel = true -> coercion_throws elapsed = true ->
     updateMetadata_completion rev song duration elapsed np w = Throw) /\
  (found channel = true -> coercion_throws elapsed = false ->
     updateMetadata_completion rev song duration elapsed np w =
     Return (emit (EPushState (StPlay st)) (with_self (set_state (StPlay st)) w))) /\
  (found channel = false ->
     updateMetadata_completion rev song duration elapsed np w = Return w).
Proof.
  intros Hd channel st. rewrite decode_song in Hd.
  destruct (truthy (song_of data)); [|discriminate].
  injection Hd as <- <- <- <-.
  split; [|split; [|split; [|split; [|split; [|split]]]]].
  - intro H. subst st. destruct rev; cbn [metadata_state st_album];
      unfold js_or; now rewrite H.
  - intro H. subst st. destruct rev; cbn [metadata_state st_albumart];
      unfold js_or; now rewrite H.
  - intro H. subst st.
    assert (E : js_or (get (get (np_of data) "now_playing") "duration") (VNum 0)
                = VNum 0) by (unfold js_or; now rewrite H).
    rewrite E. split; [reflexivity|]. now destruct rev.
  - intro H. subst st.
    assert (E : js_or (get (get (np_of data) "now_playing") "elapsed") (VNum 0)
                = VNum 0) by (unfold js_or; now rewrite H).
    rewrite E. split; [reflexivity|]. split; [now destruct rev | reflexivity].
  - intros Hf Ht. unfold updateMetadata_completion, times1000. fold channel.
    now rewrite Hf, Ht.
  - intros Hf Ht. unfold updateMetadata_completion, times1000. fold channel.
    now rewrite Hf, Ht.
  - intro Hf. unfold updateMetadata_completion. fold channel. now rewrite Hf.
Qed.

Lemma C6_field_defaults_witness :
  let song := VObj [("title", VStr "B")] in
  let data := VObj [("pub", VObj [("data", VObj [("np",
                VObj [("now_playing", VObj [("song", song)])])])])] in
  let elapsed := VArr [VNull; VObj [("toString", VStr "x")]] in
  let np' := VObj [("now_playing", VObj [("song", song); ("elapsed", elapsed)])] in
  let w := snd (clearAddPlayTrack RevB (fun _ => None)
                  (Some "motherearthradio/jazz/flac96") (started 0 false)) in
  st_album (metadata_state RevB (self w)
              (obj_get channels (key_of (currentChannel (self w))))
              song (VNum 0) (VNum 0)) = VStr "" /\
  updateMetadata_completion RevB song (VNum 0) elapsed np' w = Throw.
Proof.
  cbv zeta.
  set (song := VObj [("title", VStr "B")]).
  set (np := VObj [("now_playing", VObj [("song", song)])]).
  set (data := VObj [("pub", VObj [("data", VObj [("np", np)])])]).
  set (elapsed := VArr [VNull; VObj [("toString", VStr "x")]]).
  set (np' := VObj [("now_playing", VObj [("song", song); ("elapsed", elapsed)])]).
  set (w := snd (clearAddPlayTrack RevB (fun _ => None)
                   (Some "motherearthradio/jazz/flac96") (started 0 false))).
  split.
  - destruct (C6_field_defaults RevB data song (VNum 0) (VNum 0) np w eq_refl)
      as [Halbum _].
    exact (Halbum eq_refl).
  - destruct (C6_field_defaults RevB (VObj [("np", np')]) song (VNum 0) elapsed np' w
                eq_refl) as [_ [_ [_ [_ [Hthrow _]]]]].
    exact (Hthrow eq_refl eq_refl).
Defined.

(** Numbers, strings, booleans, [null] and [undefined] always convert. *)
Lemma coercion_throws_primitive (v : value) :
  match v with VObj _ | VArr _ => False | _ => True end ->
  coercion_throws v = false.
Proof. destruct v; simpl; tauto. Qed.

(** Where nothing is raised, the functions with abrupt completion are
    the transitions used elsewhere. *)
Lemma updateMetadata_completion_normal (rev : revision)
    (song duration elapsed np : value) (w : World) :
  coercion_throws elapsed = false ->
  updateMetadata_completion rev song duration elapsed np w =
  Return (updateMetadata rev song duration elapsed np w).
Proof.
  intro H. unfold updateMetadata_completion, updateMetadata, times1000.
  rewrite H. now destruct (negb (found _)).
Qed.

Lemma processNowPlayingData_completion_normal (rev : revision) (data : value)
    (channelKey : string) (w : World) :
  match decode data with
  | Some (song, _, elapsed, _) =>
      log_throws song = false /\ coercion_throws elapsed = false
  | None => True
  end ->
  processNowPlayingData_completion rev data channelKey w =
  Return (processNowPlayingData rev data channelKey w).
Proof.
  unfold processNowPlayingData_completion, processNowPlayingData, schedule.
  destruct (decode data) as [[[[song duration] elapsed] np]|]; [|reflexivity].
  intros [Hl He]. rewrite Hl.
  destruct (0 <? getEffectiveDelay (self w)); [reflexivity|].
  now apply updateMetadata_completion_normal.
Qed.

(** A delayed event raises nothing when it is accepted: the product is
    evaluated when its timer fires. *)
Lemma processNowPlayingData_completion_delayed (rev : revision) (data : value)
    (channelKey : string) (w : World) (song duration elapsed np : value) :
  decode data = Some (song, duration, elapsed, np) ->
  log_throws song = false -> 0 < getEffectiveDelay (self w) ->
  processNowPlayingData_completion rev data channelKey w =
  Return (processNowPlayingData rev data channelKey w).
Proof.
  intros Hd Hl Hpos.
  unfold processNowPlayingData_completion, processNowPlayingData, schedule.
  rewrite Hd, Hl.
  destruct (Z.ltb_spec 0 (getEffectiveDelay (self w))); [reflexivity | lia].
Qed.

(** The prototype based revision defaults the album to the empty string
    as well, and publishes neither duration nor elapsed time. *)
Lemma Legacy_pushMetadata_defaults (song : value) :
  truthy (get song "album") = false ->
  Legacy.album (Legacy.pushMetadata song) = VStr "" /\
  Legacy.duration (Legacy.pushMetadata song) = 0 /\
  Legacy.seek (Legacy.pushMetadata song) = 0.
Proof.
  intro H. unfold Legacy.pushMetadata, js_or. cbn. now rewrite H.
Qed.

(** Its extraction multiplies nothing, but the log line that ends
    [pushMetadata] raises a [TypeError], after the state was published,
    for an artist or a title that does not convert to a string. *)
Lemma Legacy_pushMetadata_log_raises (song : value) (fields : list (string * value))
    (x : value) :
  get song "artist" = VObj fields \/ get song "title" = VObj fields ->
  assoc "toString" fields = Some x ->
  Legacy.pushMetadata_throws song = true.
Proof.
  intros [H|H] Hx; unfold Legacy.pushMetadata_throws; rewrite H;
    cbn [coercion_throws]; rewrite Hx; [reflexivity | apply orb_true_r].
Qed.

(** ** Delay scheduler and event loop *)

Lemma same_session_refl (p : Plugin) : same_session p p.
Proof. unfold same_session. auto 10. Qed.

Lemma same_session_trans (p q r : Plugin) :
  same_session p q -> same_session q r -> same_session p r.
Proof.
  unfold same_session.
  intros [? [? [? [? [? ?]]]]] [? [? [? [? [? ?]]]]].
  repeat split; congruence.
Qed.


Lemma updateMetadata_session (rev : revision) (song duration elapsed np : value)
    (w : World) :
  same_session (self w) (self (updateMetadata rev song duration elapsed np w)).
Proof.
  unfold updateMetadata.
  destruct (found (obj_get channels (key_of (currentChannel (self w)))));
    unfold same_session; cbn; auto 10.
Qed.

Lemma fire_session (rev : revision) (t : Timer) (w : World) :
  same_session (self w) (self (fire rev t w)).
Proof.
  unfold fire. destruct (t_cb t); cbn [run_callback].
  - apply (updateMetadata_session rev song duration elapsed np
             (mkWorld (self w) (Z.max (clock w) (t_due t))
                (filter (fun t' => negb (Nat.eqb (t_id t') (t_id t))) (timers w))
                (next_handle w) (effects w))).
  - unfold same_session. cbn. auto 10.
Qed.

Lemma fire_timers (rev : revision) (t : Timer) (w : World) :
  timers (fire rev t w) =
  filter (fun t' => negb (Nat.eqb (t_id t') (t_id t))) (timers w).
Proof.
  unfold fire. destruct (t_cb t); cbn [run_callback]; [|reflexivity].
  unfold updateMetadata. cbn [self].
  now destruct (found (obj_get channels (key_of (currentChannel (self w))))).
Qed.

Lemma fire_clock (rev : revision) (t : Timer) (w : World) :
  clock (fire rev t w) = Z.max (clock w) (t_due t).
Proof.
  unfold fire. destruct (t_cb t); cbn [run_callback]; [|reflexivity].
  unfold updateMetadata. cbn [self].
  now destruct (found (obj_get channels (key_of (currentChannel (self w))))).
Qed.

Lemma fire_effects (rev : revision) (t : Timer) (w : World) :
  exists d, effects (fire rev t w) = effects w ++ d.
Proof.
  unfold fire. destruct (t_cb t); cbn [run_callback].
  - unfold updateMetadata. cbn [self].
    destruct (found (obj_get channels (key_of (currentChannel (self w))))).
    + eexists. reflexivity.
    + exists []. cbn. now rewrite app_nil_r.
  - eexists. reflexivity.
Qed.

(** A delayed event that fires is published at the time it fires,
    provided a current channel is known, and dropped otherwise. *)
Lemma fire_updateMetadata (rev : revision) (t : Timer) (w : World)
    (song duration elapsed np : value) :
  t_cb t = CbUpdateMetadata song duration elapsed np ->
  let channel := obj_get channels (key_of (currentChannel (self w))) in
  effects (fire rev t w) =
  effects w ++
  if found channel
  then [(Z.max (clock w) (t_due t),
         EPushState (StPlay (metadata_state rev (self w) channel
                               song duration elapsed)))]
  else [].
Proof.
  intros Hcb channel. unfold fire. rewrite Hcb. cbn [run_callback].
  unfold updateMetadata. cbn [self]. fold channel.
  destruct (found channel); cbn; [reflexivity | now rewrite app_nil_r].
Qed.

Lemma earliest_None (l : list Timer) : earliest l = None -> l = [].
Proof.
  destruct l as [|a l]; [reflexivity|]. simpl.
  destruct (earliest l) as [t|]; [destruct (t_due t <? t_due a)|]; discriminate.
Qed.

Lemma earliest_In (l : list Timer) (t : Timer) :
  earliest l = Some t -> In t l /\ forall x, In x l -> t_due t <= t_due x.
Proof.
  revert t. induction l as [|a l IH]; intros t; simpl; [discriminate|].
  destruct (earliest l) as [t'|] eqn:E.
  - destruct (IH t' eq_refl) as [Hin Hmin].
    destruct (Z.ltb_spec (t_due t') (t_due a)) as [Hlt|Hge]; intro H;
      injection H as <-.
    + split; [now right|]. intros x [<-|Hx]; [lia | now apply Hmin].
    + split; [now left|]. intros x [<-|Hx]; [lia|].
      specialize (Hmin x Hx). lia.
  - intro H. injection H as <-. split; [now left|].
    apply earliest_None in E. subst l.
    intros x [<-|[]]. lia.
Qed.

Lemma ids_filter (f : Timer -> bool) (l : list Timer) :
  NoDup (map t_id l) -> NoDup (map t_id (filter f l)).
Proof.
  induction l as [|a l IH]; simpl; [auto|].
  intro H. inversion H as [|? ? Hnot Hnd]; subst.
  destruct (f a); simpl; [|now apply IH].
  constructor; [|now apply IH].
  intro Hin. apply Hnot. apply in_map_iff in Hin as [x [Hx Hin]].
  apply filter_In in Hin as [Hin _]. rewrite <- Hx. now apply in_map.
Qed.


Lemma due_by_In (limit : Z) (l : list Timer) (t : Timer) :
  In t (due_by limit l) <-> In t l /\ t_due t <= limit.
Proof.
  unfold due_by. rewrite filter_In. now rewrite Z.leb_le.
Qed.

(** What a run of the event loop preserves. *)
Lemma run_timers_inv (rev : revision) (fuel : nat) (limit : Z) (w : World) :
  let w' := run_timers rev fuel limit w in
  same_session (self w) (self w') /\
  (exists d, effects w' = effects w ++ d) /\
  (NoDup (map t_id (timers w)) -> NoDup (map t_id (timers w'))) /\
  (forall x, In x (timers w') -> In x (timers w)) /\
  clock w <= clock w' <= Z.max (clock w) limit.
Proof.
  revert w. induction fuel as [|fuel IH]; intro w; cbn [run_timers].
  - split; [apply same_session_refl|]. split; [exists []; now rewrite app_nil_r|].
    split; [auto|]. split; [auto|]. lia.
  - destruct (earliest (due_by limit (timers w))) as [t|] eqn:E.
    + destruct (IH (fire rev t w)) as [Hs [[d Hd] [Hn [Hi Hc]]]].
      apply earliest_In in E as [Hin _]. apply due_by_In in Hin as [Hin Hdue].
      destruct (fire_effects rev t w) as [d0 Hd0].
      rewrite fire_timers in Hn, Hi. rewrite fire_clock in Hc.
      split; [eapply same_session_trans; [apply fire_session | exact Hs]|].
      split; [exists (d0 ++ d); now rewrite Hd, Hd0, app_assoc|].
      split; [intro H; apply Hn; now apply ids_filter|].
      split; [intros x Hx; apply Hi in Hx; now apply filter_In in Hx as [Hx _]|].
      lia.
    + split; [apply same_session_refl|]. split; [exists []; now rewrite app_nil_r|].
      split; [auto|]. split; [auto|]. lia.
Qed.







Lemma advance_inv (rev : revision) (limit : Z) (w : World) :
  same_session (self w) (self (advance rev limit w)) /\
  (exists d, effects (advance rev limit w) = effects w ++ d) /\
  (NoDup (map t_id (timers w)) ->
   NoDup (map t_id (timers (advance rev limit w)))) /\
  clock (advance rev limit w) = Z.max (clock w) limit.
Proof.
  destruct (run_timers_inv rev (List.length (timers w)) limit w)
    as [Hs [Hd [Hn [_ Hc]]]].
  unfold advance. cbn [self effects timers clock].
  split; [exact Hs|]. split; [exact Hd|]. split; [exact Hn|]. lia.
Qed.


Lemma getEffectiveDelay_formula (p : Plugin) :
  getEffectiveDelay p =
  Z.max 0 (metadataDelay p
           + if highLatencyMode p then HIGH_LATENCY_DELAY_MS else 0).
Proof.
  unfold getEffectiveDelay.
  destruct (Z.eqb_spec (metadataDelay p) 0) as [->|_];
    destruct (highLatencyMode p); f_equal; lia.
Qed.





(** The two delays of the specification, end to end: the event accepted
    at time 0 is still pending at 2999 ms (4999 ms in high-latency mode)
    and published at 3000 ms (5000 ms). *)
Lemma delay_3000_and_5000 :
  let song := VObj [("title", VStr "B"); ("artist", VStr "A")] in
  let data := VObj [("np", VObj [("now_playing", VObj [("song", song)])])] in
  let accepted := fun highLatency =>
    processNowPlayingData RevA data "radio"
      (snd (clearAddPlayTrack RevA (fun _ => None)
              (Some "motherearthradio/radio/flac192") (started 3000 highLatency))) in
  let published := fun limit highLatency =>
    map (fun e => (fst e, match snd e with
                          | EPushState (StPlay p) => st_title p
                          | _ => VUndef
                          end))
        (since (accepted highLatency) (advance RevA limit (accepted highLatency))) in
  published 2999 false = [] /\ published 3000 false = [(3000, VStr "B")] /\
  published 4999 true = [] /\ published 5000 true = [(5000, VStr "B")].
Proof. vm_compute. repeat split; reflexivity. Qed.

(** ** Stop and pending events *)


Lemma stop_effects (w : World) :
  effects (stop w) =
  effects w ++ destroyed w
  ++ [(clock w, EPushState StStop); (clock w, EMpdStop)].
Proof.
  unfold stop, emit, with_self. cbn [effects clock].
  rewrite stopSSE_effects, stopSSE_clock. unfold destroyed.
  now rewrite <- !app_assoc.
Qed.

Lemma stop_self (w : World) :
  self (stop w) =
  mkPlugin StStop (currentUri (self w)) (currentChannel (self w))
           (currentQuality (self w)) None 0 None
           (metadataDelay (self w)) (highLatencyMode (self w)).
Proof.
  unfold stop, emit, with_self. cbn [self]. rewrite stopSSE_self. reflexivity.
Qed.

Lemma stop_timers (w : World) :
  timers (stop w) =
  match sseReconnectTimer (self w) with
  | Some id => filter (fun t => negb (Nat.eqb (t_id t) id)) (timers w)
  | None => timers w
  end.
Proof. unfold stop, emit, with_self. cbn [timers]. apply stopSSE_timers. Qed.





(** A switch of channel leaves the pending event in place as well: the
    event decoded for [radio] is published at its due time while [jazz]
    is playing, with the URI of the [jazz] track. *)
Lemma switch_leaves_event_pending :
  let song := VObj [("title", VStr "B"); ("artist", VStr "A")] in
  let data := VObj [("np", VObj [("now_playing", VObj [("song", song)])])] in
  let playing := snd (clearAddPlayTrack RevA (fun _ => None)
                        (Some "motherearthradio/radio/flac192")
                        (started 3000 false)) in
  let accepted := processNowPlayingData RevA data "radio" playing in
  let switched := snd (clearAddPlayTrack RevA (fun _ => None)
                         (Some "motherearthradio/jazz/aac")
                         (advance RevA 1000 accepted)) in
  map (fun e => (fst e, match snd e with
                        | EPushState (StPlay p) => (st_title p, st_uri p)
                        | _ => (VUndef, None)
                        end))
      (since switched (advance RevA 3000 switched)) =
  [(3000, (VStr "B", Some "motherearthradio/jazz/aac"))].
Proof. vm_compute. reflexivity. Qed.

(** * Further properties of the code *)

(** ** Stream reassembly *)

Lemma split_blank_step (c c' : ascii) (s : string) :
  split_blank (String c (String c' s)) =
  if Ascii.eqb c newline && Ascii.eqb c' newline
  then EmptyString :: split_blank s
  else cons_head c (split_blank (String c' s)).
Proof. reflexivity. Qed.

Lemma cons_head_nonempty (c : ascii) (pieces : list string) :
  cons_head c pieces <> [].
Proof. destruct pieces; discriminate. Qed.

Lemma split_blank_nonempty (s : string) : split_blank s <> [].
Proof.
  destruct s as [|c [|c' s]]; try discriminate.
  rewrite split_blank_step.
  destruct (Ascii.eqb c newline && Ascii.eqb c' newline);
    [discriminate | apply cons_head_nonempty].
Qed.

(** Induction two characters at a time, the way [split_blank] recurses. *)
Lemma string_ind2 (P : string -> Prop) :
  P EmptyString ->
  (forall c, P (String c EmptyString)) ->
  (forall c c' s, P s -> P (String c' s) -> P (String c (String c' s))) ->
  forall s, P s.
Proof.
  intros H0 H1 H2 s.
  assert (H : P s /\ forall c, P (String c s)).
  { induction s as [|c' s [IHs IHc]].
    - split; [exact H0 | exact H1].
    - split; [apply IHc|]. intro c. apply H2; [exact IHs | apply IHc]. }
  exact (proj1 H).
Qed.

Lemma join_cons_head (sep : string) (c : ascii) (pieces : list string) :
  pieces <> [] ->
  join sep (cons_head c pieces) = String c (join sep pieces).
Proof.
  destruct pieces as [|hd [|hd' tl]]; [congruence| |]; reflexivity.
Qed.

(** Joining the pieces with the delimiter gives the buffer back. *)
Lemma join_split_blank (s : string) : join blank_line (split_blank s) = s.
Proof.
  induction s as [|c|c c' s IHs IHc] using string_ind2; try reflexivity.
  rewrite split_blank_step.
  destruct (Ascii.eqb c newline && Ascii.eqb c' newline) eqn:E.
  - apply andb_true_iff in E as [E1 E2].
    apply Ascii.eqb_eq in E1, E2. subst c c'.
    pose proof (split_blank_nonempty s) as Hne.
    cbn [join]. destruct (split_blank s) as [|hd tl] eqn:Es; [congruence|].
    rewrite <- Es in *. now rewrite IHs.
  - rewrite join_cons_head by apply split_blank_nonempty. now rewrite IHc.
Qed.

Lemma split_blank_single (s x : string) : split_blank s = [x] -> x = s.
Proof.
  intro H. pose proof (join_split_blank s) as J. rewrite H in J. exact J.
Qed.

Lemma removelast_cons_head (c : ascii) (pieces : list string) :
  removelast (cons_head c pieces) =
  match pieces with
  | _ :: _ :: _ => cons_head c (removelast pieces)
  | _ => []
  end.
Proof. destruct pieces as [|hd [|hd' tl]]; reflexivity. Qed.

Lemma last_cons_head (c : ascii) (pieces : list string) :
  last (cons_head c pieces) EmptyString =
  match pieces with
  | _ :: _ :: _ => last pieces EmptyString
  | [hd] => String c hd
  | [] => String c EmptyString
  end.
Proof. destruct pieces as [|hd [|hd' tl]]; reflexivity. Qed.

(** The pieces of a buffer that grows: those already complete stay, and
    only the trailing fragment is split again. *)
Lemma split_blank_app (s chunk : string) :
  split_blank (s ++ chunk) =
  removelast (split_blank s)
  ++ split_blank (last (split_blank s) EmptyString ++ chunk).
Proof.
  induction s as [|c|c c' s IHs IHc] using string_ind2; try reflexivity.
  change (String c (String c' s) ++ chunk)%string
    with (String c (String c' (s ++ chunk))).
  rewrite !split_blank_step.
  destruct (Ascii.eqb c newline && Ascii.eqb c' newline) eqn:E.
  - rewrite IHs.
    pose proof (split_blank_nonempty s) as Hne.
    destruct (split_blank s) as [|hd tl] eqn:Es; [congruence|]. reflexivity.
  - change (String c' (s ++ chunk)) with (String c' s ++ chunk)%string.
    rewrite IHc, removelast_cons_head, last_cons_head.
    pose proof (split_blank_nonempty (String c' s)) as Hne.
    destruct (split_blank (String c' s)) as [|hd [|hd' tl]] eqn:Es; [congruence| |].
    + apply split_blank_single in Es. subst hd.
      cbn [removelast last app].
      change (String c (String c' s) ++ chunk)%string
        with (String c (String c' (s ++ chunk))).
      rewrite split_blank_step. now rewrite E.
    + reflexivity.
Qed.

Lemma append_empty_r (s : string) : (s ++ EmptyString)%string = s.
Proof. induction s as [|c s IH]; simpl; [reflexivity | now rewrite IH]. Qed.

Lemma append_assoc (a b c : string) :
  ((a ++ b) ++ c)%string = (a ++ (b ++ c))%string.
Proof. induction a as [|x a IH]; simpl; [reflexivity | now rewrite IH]. Qed.

Lemma last_app_nonempty {A : Type} (l l' : list A) (d : A) :
  l' <> [] -> last (l ++ l') d = last l' d.
Proof.
  intro H. induction l as [|a l IH]; [reflexivity|].
  cbn [app last]. destruct (l ++ l') eqn:E; [|exact IH].
  apply app_eq_nil in E as [_ E]. contradiction.
Qed.

(** The trailing fragment holds no delimiter. *)
Lemma last_piece_fragment (s : string) :
  split_blank (last (split_blank s) EmptyString) =
  [last (split_blank s) EmptyString].
Proof.
  pose proof (split_blank_app s EmptyString) as H.
  rewrite !append_empty_r in H.
  rewrite (app_removelast_last EmptyString (split_blank_nonempty s)) in H at 1.
  now apply app_inv_head in H.
Qed.


(** X1: joining what [split('\n\n')] returns with the delimiter gives the
    buffer back, and the fragment kept in the buffer holds no complete
    message. *)
Theorem split_blank_round_trip (s : string) :
  join blank_line (split_blank s) = s /\
  feed (last (split_blank s) EmptyString) EmptyString =
    ([], last (split_blank s) EmptyString).
Proof.
  split; [apply join_split_blank|].
  unfold feed. rewrite append_empty_r, last_piece_fragment. reflexivity.
Qed.

Section DataHandlerProperties.

Variable toString : list Byte.byte -> string.

Variable JSON_parse : string -> option value.


End DataHandlerProperties.

Section FrameLines.

Variable JSON_parse : string -> option value.

(** X3: of the [data: ] lines of a frame the last one that parses is the
    payload; lines before it are discarded, and lines after it that are
    no [data: ] lines or do not parse leave it in place. *)
Theorem parse_lines_last (before after : list string) (line : string) (v : value) :
  startsWith "data: " line = true ->
  JSON_parse (substring_from 6 line) = Some v ->
  Forall (fun l => startsWith "data: " l = true ->
                   JSON_parse (substring_from 6 l) = None) after ->
  parse_lines JSON_parse (before ++ line :: after) = v.
Proof.
  intros Hd Hp Hafter. unfold parse_lines.
  rewrite fold_left_app. cbn [fold_left]. rewrite Hd, Hp.
  induction Hafter as [|l ls Hl _ IH]; [reflexivity|].
  cbn [fold_left]. destruct (startsWith "data: " l) eqn:E; [|exact IH].
  now rewrite (Hl eq_refl).
Qed.

End FrameLines.

Lemma parse_lines_last_witness :
  let parse := fun s => if (s =? "{}")%string then Some (VObj [])
                        else if (s =? "1")%string then Some (VNum 1) else None in
  parse_lines parse ["data: 1"; "event: ping"; "data: {}"; "data: {oops"; ": comment"]
  = VObj [].
Proof.
  cbv zeta.
  apply (parse_lines_last _ ["data: 1"; "event: ping"] ["data: {oops"; ": comment"]
           "data: {}" (VObj [])).
  - reflexivity.
  - reflexivity.
  - repeat constructor; intro H; try reflexivity; discriminate.
Defined.

(** ** URIs, browsing and the registry *)

Lemma prefix_app_l (a b s : string) :
  String.prefix (a ++ b) s = true -> String.prefix a s = true.
Proof.
  revert s. induction a as [|c a IH]; intros s.
  - now destruct s.
  - destruct s as [|c' s]; [discriminate|].
    cbn [String.append String.prefix].
    destruct (Ascii.ascii_dec c c'); [apply IH | discriminate].
Qed.

(** A string that includes [a ++ b] includes [a]. *)
Lemma includes_app_l (a b s : string) :
  includes (a ++ b) s = true -> includes a s = true.
Proof.
  induction s as [|c s IH]; cbn [includes]; intro H.
  - apply orb_true_iff in H as [H|H]; [|discriminate].
    apply prefix_app_l in H. now rewrite H.
  - apply orb_true_iff in H as [H|H].
    + apply prefix_app_l in H. now rewrite H.
    + rewrite (IH H). apply orb_true_r.
Qed.

(** The shortcode of [radio] is the beginning of every shortcode. *)
Lemma shortcodes_extend_radio :
  forallb (fun kc => String.prefix "motherearth" (shortcode (snd kc))) channels
  = true.
Proof. reflexivity. Qed.

Lemma prefix_split (p s : string) :
  String.prefix p s = true -> exists rest, s = (p ++ rest)%string.
Proof.
  revert s. induction p as [|c p IH]; intros s.
  - intros _. now exists s.
  - destruct s as [|c' s]; [discriminate|].
    cbn [String.prefix].
    destruct (Ascii.ascii_dec c c') as [->|]; [|discriminate].
    intro H. destruct (IH s H) as [rest ->]. now exists rest.
Qed.

(** The shortcode loop of [getChannelFromUri] can only answer [radio]. *)
Lemma channel_by_shortcode_radio (uri key : string) :
  channel_by_shortcode uri channels = Some key -> key = "radio".
Proof.
  intro H.
  assert (Hany : forall entries k,
             Forall (fun kc => String.prefix "motherearth" (shortcode (snd kc)) = true)
                    entries ->
             channel_by_shortcode uri entries = Some k ->
             includes "motherearth" uri = true).
  { induction entries as [|[k' c] tl IH]; intros k Hf; simpl; [discriminate|].
    inversion Hf as [|? ? Hc Htl]; subst. simpl in Hc.
    destruct (includes (shortcode c) uri) eqn:E.
    - intros _. apply prefix_split in Hc as [rest Hc]. rewrite Hc in E.
      now apply includes_app_l in E.
    - now apply IH. }
  assert (Hinc : includes "motherearth" uri = true).
  { apply (Hany channels key); [|exact H].
    apply Forall_forall. intros kc Hin.
    pose proof shortcodes_extend_radio as Hall.
    rewrite forallb_forall in Hall. now apply Hall. }
  unfold channels in H. cbn [channel_by_shortcode shortcode] in H.
  rewrite Hinc in H. now injection H as <-.
Qed.

(** X4: a channel other than [radio] is only ever derived from a URI of
    the form [motherearthradio/<key>/...]; from a direct stream URL the
    shortcode fallback cannot tell the channels apart, because the
    shortcode of [radio] occurs in every URI that holds another
    channel's. *)
Theorem getChannelFromUri_other_than_radio (uri key : string) :
  getChannelFromUri (Some uri) = key -> key <> "radio" ->
  exists rest, split slash uri = "motherearthradio" :: key :: rest /\
               found (obj_get channels key) = true.
Proof.
  intros H Hne.
  assert (Hfallback : match channel_by_shortcode uri channels with
                      | Some k => k
                      | None => "radio"
                      end = "radio").
  { destruct (channel_by_shortcode uri channels) eqn:E; [|reflexivity].
    now apply channel_by_shortcode_radio in E. }
  unfold getChannelFromUri in H.
  destruct (negb (truthy (VStr uri))); [congruence|].
  rewrite Hfallback in H.
  destruct (split slash uri) as [|p0 [|channelKey rest]]; try congruence.
  destruct (String.eqb_spec p0 "motherearthradio") as [->|]; cbn [andb] in H;
    [|congruence].
  destruct (found (obj_get channels channelKey)) eqn:Ef; [|congruence].
  subst channelKey. now exists rest.
Qed.

Lemma getChannelFromUri_other_than_radio_witness :
  exists rest, split slash "motherearthradio/jazz/aac"
               = "motherearthradio" :: "jazz" :: rest.
Proof.
  destruct (getChannelFromUri_other_than_radio "motherearthradio/jazz/aac" "jazz"
              eq_refl ltac:(discriminate)) as [rest [H _]].
  now exists rest.
Defined.

(** A direct stream URL of any channel is taken for [radio]. *)
Lemma stream_urls_resolve_to_radio :
  forallb (fun kc =>
             forallb (fun qu =>
                        (getChannelFromUri (Some (snd qu)) =? "radio")%string)
                     (streams (snd kc)))
          channels = true.
Proof. vm_compute. reflexivity. Qed.

(** A URI of the service form names its channel and its tier. *)
Lemma service_uri_channel (K Q : string) :
  found (obj_get channels K) = true -> split slash K = [K] ->
  getChannelFromUri (Some ("motherearthradio/" ++ K ++ "/" ++ Q)%string) = K.
Proof.
  intros HK Hs. unfold getChannelFromUri.
  change ("motherearthradio/" ++ K ++ "/" ++ Q)%string
    with ("motherearthradio" ++ String slash (K ++ String slash Q))%string.
  rewrite split_app by reflexivity.
  rewrite split_app by assumption.
  rewrite HK. reflexivity.
Qed.

Lemma service_uri_quality (K Q : string) :
  split slash K = [K] -> split slash Q = [Q] -> In Q quality_tiers ->
  getQualityFromUri (Some ("motherearthradio/" ++ K ++ "/" ++ Q)%string) = Q.
Proof.
  intros HK HQ Hin. unfold getQualityFromUri.
  change ("motherearthradio/" ++ K ++ "/" ++ Q)%string
    with ("motherearthradio" ++ String slash (K ++ String slash Q))%string.
  rewrite split_app by reflexivity.
  rewrite split_app by assumption.
  rewrite HQ.
  assert (E : existsb (String.eqb Q) quality_tiers = true).
  { apply existsb_exists. exists Q. split; [exact Hin | apply String.eqb_refl]. }
  cbn [negb truthy String.eqb andb]. rewrite E. reflexivity.
Qed.

(** The keys of the channel table hold no slash. *)
Lemma channel_keys_plain (key : string) (channel : Channel) :
  In (key, channel) channels -> split slash key = [key].
Proof.
  unfold channels. cbn [In].
  intros [H|[H|[H|[H|[]]]]]; injection H as <- _; reflexivity.
Qed.

Lemma In_assoc_channels (key : string) (channel : Channel) :
  In (key, channel) channels -> assoc key channels = Some channel.
Proof.
  unfold channels. cbn [In].
  intros [H|[H|[H|[H|[]]]]]; injection H as <- <-; reflexivity.
Qed.

Lemma tiers_plain (q : string) : In q quality_tiers -> split slash q = [q].
Proof. simpl. intros [<-|[<-|[<-|[]]]]; reflexivity. Qed.

(** X5: every item of the browse list leads back to the channel and the
    tier it was listed for: its URI is derived to that key and that
    tier, and playing it sends the transport the stream URL the channel
    table holds for them. *)
Theorem browseRoot_round_trip (rev : revision) (item : BrowseItem) :
  In item (browseRoot rev) ->
  exists key channel tier u,
    In (key, channel) channels /\ In tier quality_tiers /\
    b_uri item = ("motherearthradio/" ++ key ++ "/" ++ tier)%string /\
    getChannelFromUri (Some (b_uri item)) = key /\
    getQualityFromUri (Some (b_uri item)) = tier /\
    assoc tier (streams channel) = Some u /\
    forall rev' mpd w,
      mpd_sent (snd (clearAddPlayTrack rev' mpd (Some (b_uri item)) w)) =
      mpd_sent w ++ sent_until mpd (mpd_commands u).
Proof.
  intro Hin. unfold browseRoot in Hin.
  apply in_flat_map in Hin as [[key channel] [Hentry Hitem]].
  assert (Htier : forall tier,
             In tier quality_tiers ->
             item = mkBrowseItem (b_type item) (b_title item) (b_album item)
                      ("motherearthradio/" ++ key ++ "/" ++ tier)%string ->
             exists key channel tier u,
               In (key, channel) channels /\ In tier quality_tiers /\
               b_uri item = ("motherearthradio/" ++ key ++ "/" ++ tier)%string /\
               getChannelFromUri (Some (b_uri item)) = key /\
               getQualityFromUri (Some (b_uri item)) = tier /\
               assoc tier (streams channel) = Some u /\
               forall rev' mpd w,
                 mpd_sent (snd (clearAddPlayTrack rev' mpd (Some (b_uri item)) w)) =
                 mpd_sent w ++ sent_until mpd (mpd_commands u)).
  { intros tier Ht Hi.
    pose proof (channel_keys_plain _ _ Hentry) as Hk.
    pose proof (In_assoc_channels _ _ Hentry) as Ha.
    assert (Hf : found (obj_get channels key) = true)
      by (unfold obj_get; now rewrite Ha).
    assert (Huri : b_uri item = ("motherearthradio/" ++ key ++ "/" ++ tier)%string)
      by (rewrite Hi; reflexivity).
    pose proof (service_uri_channel key tier Hf Hk) as Hc.
    pose proof (service_uri_quality key tier Hk (tiers_plain _ Ht) Ht) as Hq.
    destruct (getStreamUrl_own key tier channel Ha (tier_not_inherited _ Ht))
      as [u [Hu [_ Hown]]].
    assert (Hau : assoc tier (streams channel) = Some u).
    { destruct Hown as [H|[Hnone _]]; [exact H|].
      exfalso. clear - Hentry Ht Hnone.
      unfold channels in Hentry. cbn [In] in Hentry. simpl in Ht.
      destruct Hentry as [H|[H|[H|[H|[]]]]]; injection H as <- <-;
        destruct Ht as [<-|[<-|[<-|[]]]]; discriminate. }
    exists key, channel, tier, u. rewrite Huri, Hc, Hq.
    repeat split; auto.
    intros rev' mpd w. apply clearAddPlayTrack_mpd_sent. now rewrite Hc, Hq. }
  unfold browse_entry in Hitem. cbn [In] in Hitem.
  destruct Hitem as [H|[H|[H|[]]]].
  - apply (Htier "flac192"); [simpl; auto | now rewrite <- H].
  - apply (Htier "flac96"); [simpl; auto | now rewrite <- H].
  - apply (Htier "aac"); [simpl; auto | now rewrite <- H].
Qed.

Lemma browseRoot_round_trip_witness :
  exists u, forall mpd w,
    mpd_sent (snd (clearAddPlayTrack RevA mpd
                     (Some "motherearthradio/klassik/flac96") w)) =
    mpd_sent w ++ sent_until mpd (mpd_commands u).
Proof.
  destruct (browseRoot_round_trip RevA
              (mkBrowseItem "mywebradio" "Klassik (FLAC 96kHz/24bit)" "Lossless"
                 "motherearthradio/klassik/flac96"))
    as [key [channel [tier [u [_ [_ [_ [_ [_ [_ H]]]]]]]]]].
  - unfold browseRoot. simpl. auto 10.
  - exists u. intros mpd w. apply (H RevA).
Defined.

Lemma label_of_tier (q : string) :
  In q quality_tiers ->
  exists label, assoc q labels = Some label /\
                getQualityLabel (Some q) = VStr label /\ label <> "".
Proof.
  simpl. intros [<-|[<-|[<-|[]]]]; eexists;
    (split; [reflexivity | split; [reflexivity | discriminate]]).
Qed.

(** X6: [explodeUri] never rejects: for every URI, [null] included, the
    channel derived is one the table answers to.  When it is a channel of
    the table the URI explodes to one track that keeps the URI, is titled
    with the channel name and the label of the tier, and (revision B)
    carries as [realUri] the very URL that playing the URI sends to the
    transport.  It throws for the other keys the table answers to. *)
Theorem explodeUri_resolves (rev : revision) (uri : option string) :
  (forall reason, explodeUri rev uri <> ExRejected reason) /\
  (forall channel,
     assoc (getChannelFromUri uri) channels = Some channel ->
     exists label u track,
       assoc (getQualityFromUri uri) labels = Some label /\
       explodeUri rev uri = ExResolved track /\
       tr_uri track = uri /\
       tr_title track = (name channel ++ " (" ++ label ++ ")")%string /\
       tr_album track = VStr label /\
       (rev = RevB -> tr_realUri track = VStr u) /\
       forall rev' mpd w,
         mpd_sent (snd (clearAddPlayTrack rev' mpd uri w)) =
         mpd_sent w ++ sent_until mpd (mpd_commands u)) /\
  (assoc (getChannelFromUri uri) channels = None -> explodeUri rev uri = ExThrew).
Proof.
  pose proof (getChannelFromUri_answers uri) as Hans.
  pose proof (getQualityFromUri_tier uri) as Htier.
  assert (Hfound : found (obj_get channels (getChannelFromUri uri)) = true).
  { unfold obj_get. destruct (assoc (getChannelFromUri uri) channels) eqn:E;
      [reflexivity|].
    destruct Hans as [Hin|Hinh]; [now apply assoc_None_not_key in E|].
    now rewrite Hinh. }
  split; [|split].
  - intros reason. unfold explodeUri. rewrite Hfound. cbn [negb].
    destruct (getStreamUrl (getChannelFromUri uri) (getQualityFromUri uri));
      discriminate.
  - intros channel Hc.
    destruct (label_of_tier _ Htier) as [label [Hl [Hql _]]].
    destruct (getStreamUrl_own _ _ _ Hc (tier_not_inherited _ Htier))
      as [u [Hu _]].
    exists label, u. eexists. split; [exact Hl|].
    unfold explodeUri. rewrite Hfound, Hu, Hql. cbn [negb].
    unfold obj_get. rewrite Hc. cbn [channel_name to_string].
    split; [reflexivity|]. cbn [tr_uri tr_title tr_album tr_realUri].
    split; [reflexivity|]. split; [reflexivity|]. split; [reflexivity|].
    split; [intros ->; reflexivity|].
    intros rev' mpd w. now apply clearAddPlayTrack_mpd_sent.
  - intro Hnone. unfold explodeUri. rewrite Hfound. cbn [negb].
    destruct Hans as [Hin|Hinh]; [now apply assoc_None_not_key in Hnone|].
    unfold getStreamUrl, obj_get. now rewrite Hnone, Hinh.
Qed.

Lemma explodeUri_resolves_witness :
  exists track,
    explodeUri RevB (Some "motherearthradio/jazz/aac") = ExResolved track /\
    tr_title track = "Jazz (AAC 96kHz)".
Proof.
  destruct (explodeUri_resolves RevB (Some "motherearthradio/jazz/aac"))
    as [_ [H _]].
  destruct (H _ eq_refl) as [label [u [track [Hl [He [_ [Ht _]]]]]]].
  exists track. split; [exact He|].
  rewrite Ht. injection Hl as <-. reflexivity.
Defined.

(** ** Session: what a play leaves behind *)

Lemma startSSE_self (channelKey : string) (w : World) :
  exists request,
    self (startSSE channelKey w) =
    mkPlugin (state (self w)) (currentUri (self w)) (currentChannel (self w))
             (currentQuality (self w)) request 0 None
             (metadataDelay (self w)) (highLatencyMode (self w)).
Proof.
  unfold startSSE.
  destruct (obj_get channels channelKey);
    unfold connectSSE, emit; cbn [self]; rewrite stopSSE_self;
    eexists; reflexivity.
Qed.

(** Whatever its outcome, [clearAddPlayTrack] records the URI with the
    channel and the tier derived from it. *)
Lemma clearAddPlayTrack_current (rev : revision) (mpd : transport)
    (uri : option string) (w : World) :
  let w' := snd (clearAddPlayTrack rev mpd uri w) in
  currentUri (self w') = uri /\
  currentChannel (self w') = Some (getChannelFromUri uri) /\
  currentQuality (self w') = Some (getQualityFromUri uri).
Proof.
  unfold clearAddPlayTrack.
  set (w1 := with_self _ _).
  assert (H1 : currentUri (self w1) = uri /\
               currentChannel (self w1) = Some (getChannelFromUri uri) /\
               currentQuality (self w1) = Some (getQualityFromUri uri))
    by (subst w1; cbn; auto).
  destruct (getStreamUrl (getChannelFromUri uri) (getQualityFromUri uri))
    as [streamUrl|]; [|exact H1].
  destruct (negb (truthy streamUrl)); [exact H1|].
  rewrite send_all_spec.
  destruct (startSSE_self (getChannelFromUri uri) w1) as [request Hs].
  destruct (first_failure mpd (mpd_commands (to_string streamUrl)));
    cbn [snd self emit with_self set_state]; rewrite Hs; cbn; exact H1.
Qed.



(** X8: [resume] after [stop] plays again what was playing: the same
    channel and tier, the same transport sequence with the same stream
    URL.  A play of the [null] or empty URI plays [radio] but records
    nothing to resume: [resume] then does nothing at all. *)
Theorem resume_replays (rev : revision) (mpd mpd' : transport) (w : World) :
  (forall uri u,
     truthy (nullable uri) = true ->
     getStreamUrl (getChannelFromUri uri) (getQualityFromUri uri) = Return (VStr u) ->
     let stopped := stop (snd (clearAddPlayTrack rev mpd uri w)) in
     resume rev mpd' stopped = clearAddPlayTrack rev mpd' uri stopped /\
     mpd_sent (snd (resume rev mpd' stopped)) =
       mpd_sent stopped ++ sent_until mpd' (mpd_commands u) /\
     currentChannel (self (snd (resume rev mpd' stopped))) =
       currentChannel (self stopped)) /\
  (forall uri,
     truthy (nullable uri) = false ->
     let stopped := stop (snd (clearAddPlayTrack rev mpd uri w)) in
     getChannelFromUri uri = "radio" /\
     resume rev mpd' stopped = (Resolved, stopped)).
Proof.
  split.
  - intros uri u Ht Hu stopped.
    destruct (clearAddPlayTrack_current rev mpd uri w) as [Hcu [Hcc _]].
    assert (Hs : currentUri (self stopped) = uri)
      by (subst stopped; rewrite stop_self; exact Hcu).
    assert (Hr : resume rev mpd' stopped = clearAddPlayTrack rev mpd' uri stopped)
      by (unfold resume; now rewrite Hs, Ht).
    split; [exact Hr|]. rewrite Hr. split.
    + now apply clearAddPlayTrack_mpd_sent.
    + destruct (clearAddPlayTrack_current rev mpd' uri stopped) as [_ [Hc' _]].
      rewrite Hc'. subst stopped. rewrite stop_self. cbn [currentChannel].
      now rewrite Hcc.
  - intros uri Ht stopped.
    destruct (clearAddPlayTrack_current rev mpd uri w) as [Hcu _].
    assert (Hs : currentUri (self stopped) = uri)
      by (subst stopped; rewrite stop_self; exact Hcu).
    split.
    + destruct uri as [s|]; [|reflexivity].
      cbn [nullable] in Ht. unfold getChannelFromUri. now rewrite Ht.
    + unfold resume. now rewrite Hs, Ht.
Qed.

Lemma resume_replays_witness :
  let ok : transport := fun _ => None in
  let stopped := stop (snd (clearAddPlayTrack RevA ok
                              (Some "motherearthradio/jazz/aac") (started 0 false))) in
  mpd_sent (snd (resume RevA ok stopped)) =
  mpd_sent stopped
  ++ mpd_commands "https://motherearth.streamserver24.com/listen/motherearth_jazz/motherearth.jazz.aac".
Proof.
  cbv zeta.
  destruct (resume_replays RevA (fun _ => None) (fun _ => None) (started 0 false))
    as [H _].
  destruct (H (Some "motherearthradio/jazz/aac")
              "https://motherearth.streamserver24.com/listen/motherearth_jazz/motherearth.jazz.aac"
              eq_refl eq_refl) as [_ [Hm _]].
  exact Hm.
Defined.

(** ** Connections *)


Lemma requests_app (w w' : World) (d : list (Z * Effect)) :
  effects w' = effects w ++ d ->
  requests w' =
  requests w ++ flat_map (fun e => match snd e with EHttpGet r _ => [r] | _ => [] end) d.
Proof. intro H. unfold requests. now rewrite H, flat_map_app. Qed.














(** [stopSSE] a second time changes nothing. *)
Lemma stopSSE_idempotent (w : World) : stopSSE (stopSSE w) = stopSSE w.
Proof.
  pose proof (stopSSE_self w) as Hs.
  destruct (stopSSE w) as [p c ts n es] eqn:E. cbn [self] in Hs.
  unfold stopSSE. cbn [self]. rewrite Hs. reflexivity.
Qed.

Lemma callback_keeps_request (rev : revision) (sseUrl channelKey : string)
    (ev : SseEvent) (w : World) :
  sseRequest (self (sse_callback rev sseUrl channelKey ev w)) = sseRequest (self w).
Proof.
  assert (Hs : sseRequest (self (scheduleSSEReconnect sseUrl channelKey w))
               = sseRequest (self w)).
  { unfold scheduleSSEReconnect.
    destruct (SSE_MAX_RECONNECT_ATTEMPTS <=? sseReconnectAttempts (self w));
      reflexivity. }
  assert (Hu : forall song duration elapsed np w0,
             sseRequest (self (updateMetadata rev song duration elapsed np w0))
             = sseRequest (self w0)).
  { intros. unfold updateMetadata.
    now destruct (found (obj_get channels (key_of (currentChannel (self w0))))). }
  assert (Hp : forall data w0,
             sseRequest (self (processNowPlayingData rev data channelKey w0))
             = sseRequest (self w0)).
  { intros. unfold processNowPlayingData, schedule.
    destruct (decode data) as [[[[song duration] elapsed] np]|]; [|reflexivity].
    destruct (0 <? getEffectiveDelay (self w0)); [reflexivity | apply Hu]. }
  destruct ev as [statusCode|data| | |]; cbn [sse_callback]; try exact Hs.
  - destruct (negb (statusCode =? 200)); [exact Hs | reflexivity].
  - unfold handleSSEData. destruct (negb (truthy data)); [reflexivity|].
    destruct (truthy (get data "connect")); [|apply Hp].
    destruct (truthy (get (get data "connect") "data")
              && isArray (get (get data "connect") "data")); [|reflexivity].
    generalize (array_items (get (get data "connect") "data")). intro items.
    clear Hs. revert w. induction items as [|item items IH]; intro w; [reflexivity|].
    cbn [fold_left]. rewrite IH. apply Hp.
Qed.

(** X10: no callback of a connection clears [sseRequest]: through
    failures, retries and even after the plugin has given up,
    [getDiagnostics] reports [sseConnected] as long as no stop
    intervened; only [stop] (or a plugin stop) makes it false. *)
Theorem diagnostics_connected (rev : revision) (sseUrl channelKey : string)
    (evs : list SseEvent) (w : World) :
  sseRequest (self w) <> None ->
  sseConnected (getDiagnostics (streak rev sseUrl channelKey evs w)) = true /\
  sseConnected (getDiagnostics (stop (streak rev sseUrl channelKey evs w))) = false.
Proof.
  intro H. split; [|unfold getDiagnostics; now rewrite stop_self].
  assert (Hk : sseRequest (self (streak rev sseUrl channelKey evs w)) <> None).
  { unfold streak. revert w H.
    induction evs as [|ev evs IH]; intros w H; [exact H|].
    cbn [fold_left]. apply IH. rewrite callback_keeps_request.
    unfold retry_fires. destruct (pending_reconnect w) as [t|]; [|exact H].
    unfold fire. destruct (t_cb t); cbn [run_callback].
    - unfold updateMetadata. cbn [self].
      now destruct (found (obj_get channels (key_of (currentChannel (self w))))).
    - discriminate. }
  unfold getDiagnostics. cbn [sseConnected].
  destruct (sseRequest (self (streak rev sseUrl channelKey evs w)));
    [reflexivity | contradiction].
Qed.

Lemma diagnostics_connected_witness :
  let w := startSSE "radio" (started 0 false) in
  let exhausted := streak RevA "u" "radio" (repeat RequestError 11) w in
  sseConnected (getDiagnostics exhausted) = true.
Proof.
  cbv zeta.
  destruct (diagnostics_connected RevA "u" "radio" (repeat RequestError 11)
              (startSSE "radio" (started 0 false)) ltac:(discriminate))
    as [H _].
  exact H.
Defined.

(** [stopSSE] leaves nothing of the connection manager behind. *)
Lemma stopSSE_idle (w : World) :
  sseRequest (self (stopSSE w)) = None /\
  sseReconnectTimer (self (stopSSE w)) = None /\
  sseReconnectAttempts (self (stopSSE w)) = 0.
Proof. rewrite stopSSE_self. auto. Qed.


Lemma filter_find_none (id : nat) (l : list Timer) :
  find (fun t => Nat.eqb (t_id t) id) l = None ->
  filter (fun t => negb (Nat.eqb (t_id t) id)) l = l.
Proof.
  induction l as [|t l IH]; [reflexivity|]. cbn [find filter].
  destruct (Nat.eqb (t_id t) id); [discriminate|].
  intro H. cbn [negb]. now rewrite IH.
Qed.

(** Timers that deliver metadata open no request when they fire. *)
Lemma run_timers_no_connect (rev : revision) (fuel : nat) (limit : Z) (w : World) :
  Forall (fun t => is_connect (t_cb t) = false) (timers w) ->
  requests (run_timers rev fuel limit w) = requests w.
Proof.
  revert w. induction fuel as [|fuel IH]; intros w Hall; [reflexivity|].
  cbn [run_timers].
  destruct (earliest (due_by limit (timers w))) as [t|] eqn:E; [|reflexivity].
  apply earliest_In in E as [Hin _]. apply due_by_In in Hin as [Hin _].
  pose proof Hall as Hall'. rewrite Forall_forall in Hall'.
  specialize (Hall' t Hin).
  destruct (t_cb t) as [song duration elapsed np|] eqn:Ecb; [|discriminate].
  rewrite IH.
  - pose proof (fire_updateMetadata rev t w _ _ _ _ Ecb) as He.
    rewrite (requests_app _ _ _ He).
    destruct (found (obj_get channels (key_of (currentChannel (self w)))));
      cbn; apply app_nil_r.
  - rewrite fire_timers. apply Forall_forall. intros x Hx.
    apply filter_In in Hx as [Hx _]. rewrite Forall_forall in Hall. now apply Hall.
Qed.

(** X11: a [stop()] during a failure streak cancels the reconnect that
    is armed: however much time passes afterwards, no request is opened
    and the attempt counter is back at 0 (unlike delayed metadata, whose
    timers survive the stop). *)
Theorem stop_cancels_reconnect (rev : revision) (sseUrl channelKey : string)
    (evs : list SseEvent) (w : World) (limit : Z) :
  sseReconnectAttempts (self w) = 0 -> pending_reconnect w = None ->
  Forall (fun t => (t_id t < next_handle w)%nat) (timers w) ->
  Forall (fun t => is_connect (t_cb t) = false) (timers w) ->
  Forall (fun ev => is_failure ev = true) evs ->
  Z.of_nat (List.length evs) <= SSE_MAX_RECONNECT_ATTEMPTS ->
  let failed := streak rev sseUrl channelKey evs w in
  timers (stop failed) = timers w /\
  requests (advance rev limit (stop failed)) = requests failed /\
  sseReconnectAttempts (self (advance rev limit (stop failed))) = 0.
Proof.
  intros Ha Hp Hf Hnc Hall Hlen failed.
  pose proof (streak_armed rev sseUrl channelKey evs w
                (armed_start _ _ _ Ha Hp Hf) Hall Hlen) as Harmed.
  fold failed in Harmed.
  destruct Harmed as [_ [_ [_ [Hn Hk]]]].
  assert (Ht : timers (stop failed) = timers w).
  { rewrite stop_timers.
    destruct (Z.of_nat (List.length evs) =? 0).
    - destruct Hk as [Htm [Hpend _]]. rewrite Htm.
      unfold pending_reconnect in Hpend.
      destruct (sseReconnectTimer (self failed)) as [id|]; [|reflexivity].
      rewrite Htm in Hpend. now apply filter_find_none.
    - destruct Hk as [id [Hid [Hs [Htm _]]]]. rewrite Hs, Htm.
      apply (filter_fresh_last _ (next_handle w)); [exact Hf | lia | reflexivity]. }
  split; [exact Ht|]. split.
  - unfold advance, requests at 1. cbn [effects].
    fold (requests (run_timers rev (List.length (timers (stop failed))) limit
                      (stop failed))).
    rewrite run_timers_no_connect by (rewrite Ht; exact Hnc).
    rewrite (requests_app _ _ _ (stop_effects failed)).
    unfold destroyed. destruct (sseRequest (self failed)); cbn; apply app_nil_r.
  - destruct (advance_inv rev limit (stop failed)) as [_ _].
    unfold advance. cbn [self].
    assert (Hatt : forall fuel w0,
               sseReconnectAttempts (self (run_timers rev fuel limit w0)) =
               sseReconnectAttempts (self w0)).
    { induction fuel as [|fuel IH]; intro w0; [reflexivity|]. cbn [run_timers].
      destruct (earliest (due_by limit (timers w0))); [|reflexivity].
      rewrite IH. apply fire_attempts. }
    rewrite Hatt, stop_self. reflexivity.
Qed.

Lemma stop_cancels_reconnect_witness :
  let failed := streak RevA "u" "radio" [RequestError; Response 503]
                  (startSSE "radio" (started 0 false)) in
  requests (advance RevA 1000000 (stop failed)) = requests failed.
Proof.
  cbv zeta.
  destruct (stop_cancels_reconnect RevA "u" "radio" [RequestError; Response 503]
              (startSSE "radio" (started 0 false)) 1000000)
    as [_ [H _]].
  - reflexivity.
  - reflexivity.
  - constructor.
  - constructor.
  - repeat constructor.
  - unfold SSE_MAX_RECONNECT_ATTEMPTS. simpl. lia.
  - exact H.
Defined.

(** ** Settings *)

Lemma applyHighLatencyBuffer_keeps (h : Host) :
  world (snd (applyHighLatencyBuffer h)) = world h /\
  config (snd (applyHighLatencyBuffer h)) = config h.
Proof.
  unfold applyHighLatencyBuffer. destruct (mpd_buffer h) as [stored|]; [|auto].
  destruct (num_or stored NORMAL_BUFFER_KB <? HIGH_LATENCY_BUFFER_KB); auto.
Qed.

Lemma restoreNormalBuffer_keeps (h : Host) :
  world (snd (restoreNormalBuffer h)) = world h /\
  config (snd (restoreNormalBuffer h)) = config h.
Proof. unfold restoreNormalBuffer. destruct (mpd_buffer h); auto. Qed.


Lemma successToast_keeps (key : string) (h : Host) :
  self (world (successToast key h)) = self (world h) /\
  config (successToast key h) = config h /\
  mpd_buffer (successToast key h) = mpd_buffer h.
Proof. unfold successToast. cbn. auto. Qed.

(** What [saveConfig] stores and sets, whatever the mode transition. *)
Lemma saveConfig_settings (apiDelay : option Z) (highLatency : option bool)
    (h : Host) :
  config (saveConfig apiDelay highLatency h) =
    mkConfig (Some (num_or apiDelay 0)) (Some (bool_or_false highLatency)) /\
  metadataDelay (self (world (saveConfig apiDelay highLatency h))) =
    num_or apiDelay 0 /\
  highLatencyMode (self (world (saveConfig apiDelay highLatency h))) =
    bool_or_false highLatency.
Proof.
  unfold saveConfig.
  set (h1 := mkHost _ _ (mpd_buffer h)).
  destruct (applyHighLatencyBuffer_keeps h1) as [Ha1 Ha2].
  destruct (restoreNormalBuffer_keeps h1) as [Hr1 Hr2].
  destruct (bool_or_false highLatency && negb (bool_or_false (cfg_highLatencyMode (config h))));
    [|destruct (negb (bool_or_false highLatency)
                && bool_or_false (cfg_highLatencyMode (config h)))];
    unfold successToast; cbn [config world emit self];
    rewrite ?Ha1, ?Ha2, ?Hr1, ?Hr2; subst h1; cbn; auto.
Qed.

(** X12: what [saveConfig] stores is what the settings form shows and
    what the delay scheduler uses at once; after a restart [onStart]
    loads the same settings back, except a delay of 0, which it replaces
    by 3 while the form still shows 0. *)
Theorem saveConfig_round_trip (apiDelay : Z) (highLatency : bool) (h : Host) :
  let saved := saveConfig (Some apiDelay) (Some highLatency) h in
  getUIConfig saved = (highLatency, apiDelay) /\
  getEffectiveDelay (self (world saved)) =
    Z.max 0 (apiDelay + if highLatency then HIGH_LATENCY_DELAY_MS else 0) /\
  highLatencyMode (self (world (onStart saved))) = highLatency /\
  metadataDelay (self (world (onStart saved))) =
    (if apiDelay =? 0 then 3 else apiDelay) /\
  getUIConfig (onStart saved) = (highLatency, apiDelay).
Proof.
  intro saved.
  destruct (saveConfig_settings (Some apiDelay) (Some highLatency) h)
    as [Hc [Hd Hh]].
  fold saved in Hc, Hd, Hh. cbn [num_or bool_or_false] in Hc, Hd, Hh.
  assert (Hid : (if apiDelay =? 0 then 0 else apiDelay) = apiDelay)
    by (destruct (Z.eqb_spec apiDelay 0); congruence).
  rewrite Hid in Hc, Hd.
  split; [unfold getUIConfig; rewrite Hc; cbn; now rewrite Hid|].
  split; [rewrite getEffectiveDelay_formula, Hd, Hh; reflexivity|].
  unfold onStart. rewrite Hc. cbn [cfg_apiDelay cfg_highLatencyMode num_or bool_or_false].
  set (h1 := mkHost _ _ (mpd_buffer saved)).
  destruct (applyHighLatencyBuffer_keeps h1) as [Ha1 Ha2].
  assert (Hw : world (if highLatency then snd (applyHighLatencyBuffer h1) else h1)
               = world h1) by (destruct highLatency; [exact Ha1 | reflexivity]).
  assert (Hcfg : config (if highLatency then snd (applyHighLatencyBuffer h1) else h1)
                 = config h1) by (destruct highLatency; [exact Ha2 | reflexivity]).
  rewrite Hw. unfold getUIConfig. rewrite Hcfg. subst h1.
  cbn [world config with_self self set_settings highLatencyMode metadataDelay
       cfg_apiDelay cfg_highLatencyMode num_or bool_or_false].
  rewrite Hid. auto.
Qed.

(** A saved delay of 0 is in force until the restart, and 3 after it. *)
Lemma saveConfig_restart_zero_delay :
  let h := mkHost (started 5 false) (mkConfig (Some 5) None) (Some None) in
  metadataDelay (self (world (saveConfig (Some 0) (Some false) h))) = 0 /\
  metadataDelay (self (world (onStart (saveConfig (Some 0) (Some false) h)))) = 3.
Proof. vm_compute. split; reflexivity. Qed.

(** Every save shows one toast, chosen by the change of mode. *)
Lemma saveConfig_toast (apiDelay : option Z) (highLatency : option bool) (h : Host) :
  map snd (toasts (world (saveConfig apiDelay highLatency h))) =
  map snd (toasts (world h))
  ++ [EToast "success" "PLUGIN_NAME"
        (if bool_or_false highLatency
            && negb (bool_or_false (cfg_highLatencyMode (config h)))
         then "HIGH_LATENCY_ENABLED"
         else if negb (bool_or_false highLatency)
                 && bool_or_false (cfg_highLatencyMode (config h))
         then "HIGH_LATENCY_DISABLED"
         else "SAVE_CONFIG_MESSAGE")].
Proof.
  unfold saveConfig.
  set (h1 := mkHost _ _ (mpd_buffer h)).
  destruct (applyHighLatencyBuffer_keeps h1) as [Ha _].
  destruct (restoreNormalBuffer_keeps h1) as [Hr _].
  assert (Ht : toasts (world h1) = toasts (world h)) by reflexivity.
  destruct (bool_or_false highLatency
            && negb (bool_or_false (cfg_highLatencyMode (config h))));
    [|destruct (negb (bool_or_false highLatency)
                && bool_or_false (cfg_highLatencyMode (config h)))];
    unfold successToast; cbn [world]; rewrite toasts_emit, ?Ha, ?Hr, Ht, map_app;
    reflexivity.
Qed.

(** X13: switching high-latency mode on never lowers the MPD buffer: it
    becomes the larger of the current size and 32768 KB.  Switching it
    off sets 4096 KB whatever the size was before it was switched on, so
    a custom size does not survive an on/off cycle.  Saving without
    changing the mode leaves the buffer alone, and every save shows one
    toast. *)
Theorem saveConfig_buffer (apiDelay : option Z) (stored : option Z) (h : Host) :
  mpd_buffer h = Some stored ->
  bool_or_false (cfg_highLatencyMode (config h)) = false ->
  let current := num_or stored NORMAL_BUFFER_KB in
  let on := saveConfig apiDelay (Some true) h in
  let off := saveConfig apiDelay (Some false) on in
  (exists stored', mpd_buffer on = Some stored' /\
                   num_or stored' NORMAL_BUFFER_KB = Z.max current HIGH_LATENCY_BUFFER_KB) /\
  mpd_buffer off = Some (Some NORMAL_BUFFER_KB) /\
  mpd_buffer (saveConfig apiDelay (Some true) on) = mpd_buffer on /\
  mpd_buffer (saveConfig apiDelay (Some false) h) = mpd_buffer h /\
  map snd (toasts (world off)) =
    map snd (toasts (world h))
    ++ [EToast "success" "PLUGIN_NAME" "HIGH_LATENCY_ENABLED";
        EToast "success" "PLUGIN_NAME" "HIGH_LATENCY_DISABLED"].
Proof.
  intros Hb Hold current on off.
  assert (Hon : on = successToast "HIGH_LATENCY_ENABLED"
                       (snd (applyHighLatencyBuffer
                               (mkHost (with_self (set_settings (num_or apiDelay 0) true)
                                          (world h))
                                       (mkConfig (Some (num_or apiDelay 0)) (Some true))
                                       (mpd_buffer h))))).
  { subst on. unfold saveConfig. rewrite Hold. reflexivity. }
  assert (Hcfg : bool_or_false (cfg_highLatencyMode (config on)) = true).
  { destruct (saveConfig_settings apiDelay (Some true) h) as [Hc _].
    fold on in Hc. now rewrite Hc. }
  assert (Hbuf : exists stored',
             mpd_buffer on = Some stored' /\
             num_or stored' NORMAL_BUFFER_KB = Z.max current HIGH_LATENCY_BUFFER_KB).
  { rewrite Hon. unfold successToast, applyHighLatencyBuffer.
    cbn [mpd_buffer]. rewrite Hb. fold current.
    destruct (Z.ltb_spec current HIGH_LATENCY_BUFFER_KB) as [Hlt|Hge];
      cbn [snd mpd_buffer].
    - exists (Some HIGH_LATENCY_BUFFER_KB). split; [reflexivity|].
      cbn. unfold HIGH_LATENCY_BUFFER_KB in *. lia.
    - exists stored. split; [reflexivity|]. fold current. lia. }
  split; [exact Hbuf|].
  destruct Hbuf as [stored' [Hb' Hmax]].
  split; [|split; [|split]].
  - subst off. unfold saveConfig. rewrite Hcfg. cbn [bool_or_false andb negb].
    unfold successToast, restoreNormalBuffer. cbn [mpd_buffer]. now rewrite Hb'.
  - unfold saveConfig. rewrite Hcfg. cbn [bool_or_false andb negb].
    unfold successToast. cbn [mpd_buffer]. reflexivity.
  - unfold saveConfig. rewrite Hold. cbn [bool_or_false andb negb].
    unfold successToast. cbn [mpd_buffer]. reflexivity.
  - subst off. rewrite (saveConfig_toast apiDelay (Some false) on).
    subst on. rewrite (saveConfig_toast apiDelay (Some true) h).
    fold (saveConfig apiDelay (Some true) h) in Hcfg.
    cbn [bool_or_false]. rewrite Hold, Hcfg. cbn [andb negb].
    now rewrite <- app_assoc.
Qed.

Lemma saveConfig_buffer_witness :
  let h := mkHost (started 0 false) (mkConfig None None) (Some (Some 8192)) in
  mpd_buffer (saveConfig None (Some false) (saveConfig None (Some true) h))
  = Some (Some 4096).
Proof.
  cbv zeta.
  destruct (saveConfig_buffer None (Some 8192)
              (mkHost (started 0 false) (mkConfig None None) (Some (Some 8192)))
              eq_refl eq_refl) as [_ [H _]].
  exact H.
Defined.

(** ** The transport chain of the prototype based revision *)

(** X14: in [index.js] a rejected [stop], [clear] or [load] does not end
    the sequence: the commands after it up to [load] are skipped, the
    [.fail] handler in the middle of the chain sends [add] instead and
    [play] follows if [add] succeeds; [add] is never sent when the three
    succeed.  The state is published exactly when
    the deferred is resolved, which needs [play] to succeed; and the
    promise handed back to the caller is the chain itself, which is
    fulfilled whatever the transport did. *)
Theorem legacy_chain (mpd : transport) (streamUrl : string) :
  let quoted := (dquote ++ streamUrl ++ dquote)%string in
  let load := ("load " ++ quoted)%string in
  let add := ("add " ++ quoted)%string in
  let run := LegacyChain.chain mpd streamUrl in
  LegacyChain.returned run = LegacyChain.Fulfilled /\
  (LegacyChain.published run = true <->
   LegacyChain.deferred run = LegacyChain.Fulfilled) /\
  (LegacyChain.published run = true -> mpd "play" = None) /\
  (mpd "stop" = None -> mpd "clear" = None -> mpd load = None ->
   LegacyChain.sent run = ["stop"; "clear"; load; "play"]) /\
  (forall err, mpd "stop" = Some err ->
   LegacyChain.sent run =
     "stop" :: add :: match mpd add with None => ["play"] | Some _ => [] end) /\
  (forall err, mpd "stop" = None -> mpd "clear" = Some err ->
   LegacyChain.sent run =
     "stop" :: "clear" :: add
     :: match mpd add with None => ["play"] | Some _ => [] end) /\
  (forall err, mpd "stop" = None -> mpd "clear" = None -> mpd load = Some err ->
   LegacyChain.sent run =
     "stop" :: "clear" :: load :: add
     :: match mpd add with None => ["play"] | Some _ => [] end).
Proof.
  cbv zeta. unfold LegacyChain.chain, LegacyChain.then_send, LegacyChain.fail_send.
  set (load := ("load " ++ dquote ++ streamUrl ++ dquote)%string).
  set (add := ("add " ++ dquote ++ streamUrl ++ dquote)%string).
  destruct (mpd "stop") as [e1|] eqn:E1; cbn [fst snd app];
    [|destruct (mpd "clear") as [e2|] eqn:E2; cbn [fst snd app];
      [|destruct (mpd load) as [e3|] eqn:E3; cbn [fst snd app]]];
    try (destruct (mpd add) as [e4|] eqn:E4; cbn [fst snd app]);
    try (destruct (mpd "play") as [e5|] eqn:E5; cbn [fst snd app]);
    cbn [LegacyChain.returned LegacyChain.published LegacyChain.deferred
         LegacyChain.sent];
    repeat split; try reflexivity; try discriminate; try congruence;
    intros; try discriminate; try congruence.
Qed.

Lemma legacy_chain_witness :
  let mpd : transport :=
    fun cmd => if (cmd =? "stop")%string then Some "busy" else None in
  LegacyChain.sent (LegacyChain.chain mpd "http://x") =
  ["stop"; ("add " ++ dquote ++ "http://x" ++ dquote)%string; "play"].
Proof.
  cbv zeta.
  destruct (legacy_chain
              (fun cmd => if (cmd =? "stop")%string then Some "busy" else None)
              "http://x") as [_ [_ [_ [_ [H _]]]]].
  exact (H "busy" eq_refl).
Defined.

(** ** Order of publication *)










(** ** The data handler of the prototype based revision *)

Lemma split_single (sep : ascii) (s x : string) : split sep s = [x] -> x = s.
Proof.
  revert x. induction s as [|c s IH]; intros x; cbn [split].
  - intro H. now injection H as <-.
  - destruct (Ascii.eqb c sep).
    + intro H. injection H as _ H. now apply split_nonempty in H.
    + destruct (split sep s) as [|hd tl] eqn:E; [now apply split_nonempty in E|].
      intro H. injection H as <- ->. now rewrite (IH hd eq_refl).
Qed.

(** The lines of a buffer that grows: the complete ones stay, only the
    trailing fragment is split again. *)
Lemma split_grows (sep : ascii) (s chunk : string) :
  split sep (s ++ chunk) =
  removelast (split sep s) ++ split sep (last (split sep s) EmptyString ++ chunk).
Proof.
  induction s as [|c s IH]; [reflexivity|].
  change (String c s ++ chunk)%string with (String c (s ++ chunk)).
  cbn [split]. destruct (Ascii.eqb c sep) eqn:Ec.
  - rewrite IH. pose proof (split_nonempty sep s) as Hne.
    destruct (split sep s) as [|hd tl]; [congruence | reflexivity].
  - rewrite IH. pose proof (split_nonempty sep s) as Hne.
    destruct (split sep s) as [|hd [|hd' tl]] eqn:Es; [congruence| |].
    + apply split_single in Es. subst hd. cbn [removelast last app].
      change (String c s ++ chunk)%string with (String c (s ++ chunk)).
      cbn [split]. now rewrite Ec.
    + cbn [removelast last app]. reflexivity.
Qed.

Lemma last_line_fragment (sep : ascii) (s : string) :
  split sep (last (split sep s) EmptyString) = [last (split sep s) EmptyString].
Proof.
  pose proof (split_grows sep s EmptyString) as H.
  rewrite !append_empty_r in H.
  rewrite (app_removelast_last EmptyString (split_nonempty sep s)) in H at 1.
  now apply app_inv_head in H.
Qed.

Section LegacyLines.

Variable toString : list Byte.byte -> string.

Variable JSON_parse : string -> option value.

(** X16: in [index.js] too the line buffer adds no dependence on the
    chunk boundaries to that of the decoding: with each chunk decoded on
    its own, the songs handed to [handleMetadata] are those of the
    complete lines of the concatenation of the decoded texts, in order,
    and its unfinished last line stays in the buffer. *)
Theorem legacy_onData_stream (chunks : list (list Byte.byte)) :
  let text := fold_right String.append EmptyString (map toString chunks) in
  LegacyStream.onData_all toString JSON_parse EmptyString chunks =
  (LegacyStream.songs_of JSON_parse (removelast (split newline text)),
   last (split newline text) EmptyString).
Proof.
  cbv zeta.
  assert (H : forall buffer,
             split newline buffer = [buffer] ->
             LegacyStream.onData_all toString JSON_parse buffer chunks =
             (LegacyStream.songs_of JSON_parse
                (removelast (split newline
                               (buffer ++ fold_right String.append EmptyString
                                            (map toString chunks)))),
              last (split newline
                      (buffer ++ fold_right String.append EmptyString
                                   (map toString chunks)))
                   EmptyString)).
  { induction chunks as [|chunk rest IH]; intros buffer Hb;
      cbn [fold_right map LegacyStream.onData_all].
    - rewrite append_empty_r, Hb. reflexivity.
    - unfold LegacyStream.onData, LegacyStream.feed.
      rewrite (IH _ (last_line_fragment newline (buffer ++ toString chunk))).
      rewrite <- append_assoc, (split_grows newline (buffer ++ toString chunk)).
      rewrite removelast_app by apply split_nonempty.
      rewrite last_app_nonempty by apply split_nonempty.
      unfold LegacyStream.songs_of. now rewrite flat_map_app. }
  apply (H EmptyString eq_refl).
Qed.

End LegacyLines.

(** ** Format reported with the metadata *)

(** X17: the class revision that tells the format from the URI reports
    [flac], 96 kHz and 24 bit with every metadata update of a track
    played from the browse list, whatever its tier, the AAC and the
    192 kHz ones included, while its provisional state reports the rate
    and depth of the tier; the other revision reports the tier's in
    both. *)
Theorem update_reports_fixed_format (key tier : string) (channel : Channel)
    (mpd : transport) (w : World) (song duration elapsed : value) :
  In (key, channel) channels -> In tier quality_tiers ->
  let uri := Some ("motherearthradio/" ++ key ++ "/" ++ tier)%string in
  let update rev :=
    let p := self (snd (clearAddPlayTrack rev mpd uri w)) in
    metadata_state rev p (obj_get channels (key_of (currentChannel p)))
                   song duration elapsed in
  let provisional rev :=
    connecting_state rev (self (snd (clearAddPlayTrack rev mpd uri w))) uri in
  (st_trackType (update RevB) = VStr "flac" /\
   st_samplerate (update RevB) = VStr "96 kHz" /\
   st_bitdepth (update RevB) = VStr "24 bit") /\
  (st_samplerate (provisional RevB) = getSampleRate (Some tier) /\
   st_bitdepth (provisional RevB) = getBitDepth (Some tier)) /\
  (st_samplerate (update RevA) = getSampleRate (Some tier) /\
   st_bitdepth (update RevA) = getBitDepth (Some tier) /\
   st_samplerate (provisional RevA) = getSampleRate (Some tier) /\
   st_bitdepth (provisional RevA) = getBitDepth (Some tier)).
Proof.
  intros Hk Ht uri update provisional.
  assert (Hq : forall rev,
             currentQuality (self (snd (clearAddPlayTrack rev mpd uri w))) = Some tier).
  { intro rev. destruct (clearAddPlayTrack_current rev mpd uri w) as [_ [_ H]].
    rewrite H. subst uri.
    now rewrite (service_uri_quality key tier (channel_keys_plain _ _ Hk)
                   (tiers_plain _ Ht) Ht). }
  assert (Hu : forall rev,
             currentUri (self (snd (clearAddPlayTrack rev mpd uri w))) = uri).
  { intro rev. now destruct (clearAddPlayTrack_current rev mpd uri w) as [H _]. }
  assert (Haac : includes ".aac" ("motherearthradio/" ++ key ++ "/" ++ tier) = false).
  { clear - Hk Ht. unfold channels in Hk. cbn [In] in Hk. simpl in Ht.
    destruct Hk as [H|[H|[H|[H|[]]]]]; injection H as <- _;
      destruct Ht as [<-|[<-|[<-|[]]]]; vm_compute; reflexivity. }
  subst update provisional. cbv beta zeta.
  cbn [metadata_state connecting_state st_trackType st_samplerate st_bitdepth].
  unfold uri_is_aac. rewrite (Hu RevB), (Hq RevB), (Hq RevA).
  subst uri. cbv beta iota. rewrite Haac. repeat split.
Qed.

Lemma update_reports_fixed_format_witness :
  let uri := Some "motherearthradio/jazz/flac192" in
  let p := self (snd (clearAddPlayTrack RevB (fun _ => None) uri (started 0 false))) in
  st_samplerate (metadata_state RevB p (obj_get channels (key_of (currentChannel p)))
                   VNull VNull VNull) = VStr "96 kHz" /\
  st_samplerate (connecting_state RevB p uri) = VStr "192 kHz".
Proof.
  destruct (update_reports_fixed_format "jazz" "flac192"
              (mkChannel "Jazz" "motherearth_jazz"
                 [("flac192", (listen ++ "motherearth_jazz/motherearth.jazz")%string);
                  ("flac96", (listen ++ "motherearth_jazz/motherearth.jazz.flac-lo")%string);
                  ("aac", (listen ++ "motherearth_jazz/motherearth.jazz.aac")%string)])
              (fun _ => None) (started 0 false) VNull VNull VNull)
    as [[_ [Hs _]] [[Hp _] _]].
  - do 3 right. left. reflexivity.
  - left. reflexivity.
  - split; [exact Hs | exact Hp].
Defined.
